(** * subiquity: the apt configurer ([subiquity/server/apt.py])

    A shallow embedding of [AptConfigurer] and of the part of its
    environment that the class talks to: the command runner, curtin, the
    [os] / [shutil] / [tempfile] calls and the installer application object.

    The methods of the class are written in a state-and-exception monad.
    The state is the object itself (its two ledgers [_mounts] and [_tdirs])
    together with the world it runs in.  A raised exception leaves the state
    as it was at the raise, which is what a Python caller observes when
    [configure] aborts half way.  The coroutines are awaited one after the
    other, so [await] is sequencing. *)

From Stdlib Require Import Ascii.
From stdpp Require Import base strings list gmap fin_maps.

(** ** Strings and paths *)

(** The line feed written as [\n] in the Python source. *)
Definition nl : string := String (Ascii.ascii_of_nat 10) "".

Definition starts_with_sep (s : string) : bool :=
  match s with
  | String c _ => Ascii.eqb c "/"%char
  | EmptyString => false
  end.

Fixpoint ends_with_sep (s : string) : bool :=
  match s with
  | EmptyString => false
  | String c EmptyString => Ascii.eqb c "/"%char
  | String _ s' => ends_with_sep s'
  end.

(** One round of the loop of [posixpath.join]. *)
Definition join1 (path b : string) : string :=
  if starts_with_sep b then b
  else if String.eqb path "" || ends_with_sep path then path +:+ b
  else path +:+ "/" +:+ b.

(** [os.path.join(a, *p)]. *)
Definition path_join (a : string) (p : list string) : string := foldl join1 a p.
Arguments path_join : simpl never.

(** [p] is [d] itself or lies below it. *)
Definition is_under (d p : string) : bool :=
  String.eqb d p || String.prefix (d +:+ "/") p.

(** [p] lies strictly below [d]. *)
Definition is_below (d p : string) : bool := String.prefix (d +:+ "/") p.

(** ** The file tree *)

Inductive node :=
| File (content : string)
| Dir.

(** Nothing lies below [d]. *)
Definition dir_empty (d : string) (f : gmap string node) : bool :=
  bool_decide (map_Forall (λ p _, is_below d p = false) f).
Arguments dir_empty : simpl never.

(** ** What the stager asks of its environment *)

Inductive event :=
| EvRun (argv : list string)                          (* app.command_runner.run(argv) *)
| EvCurtin (args : list string) (config : option string) (* run_curtin_command(app, context, *args, config=config) *)
| EvApport (key path : string)                        (* app.note_data_for_apport(key, path) *)
| EvOpenW (p content : string)                        (* with open(p, 'w') as f: f.write(content) *)
| EvMkdtemp                                           (* tempfile.mkdtemp() *)
| EvMkdir (p : string)                                (* os.mkdir(p) *)
| EvRename (src dst : string)                         (* os.rename(src, dst) *)
| EvUnlink (p : string)                               (* os.unlink(p) *)
| EvWriteFile (p content : string)                    (* curtin.util.write_file(p, content) *)
| EvRmtree (p : string)                               (* shutil.rmtree(p) *)
| EvRmdir (p : string).                               (* os.rmdir(p) *)

Global Instance event_eq_dec : EqDecision event.
Proof. solve_decision. Defined.

Inductive exn :=
| CalledProcessError (argv : list string)
| CurtinError (args : list string)
| FileNotFoundError (p : string)
| FileExistsError (p : string)
| IsADirectoryError (p : string)
| NotADirectoryError (p : string)
| DirectoryNotEmpty (p : string)
| OSError (e : event).

(** The exception an operation raises when the environment refuses it. *)
Definition fault_exn (e : event) : exn :=
  match e with
  | EvRun argv => CalledProcessError argv
  | EvCurtin args _ => CurtinError args
  | _ => OSError e
  end.

(** The eight random characters of a [tempfile] name. *)
Inductive tmpchars :=
| TmpChars (c1 c2 c3 c4 c5 c6 c7 c8 : ascii).

Definition tmpchars_str (t : tmpchars) : string :=
  match t with
  | TmpChars c1 c2 c3 c4 c5 c6 c7 c8 =>
      String c1 (String c2 (String c3 (String c4
        (String c5 (String c6 (String c7 (String c8 "")))))))
  end.

(** What the stager reads from the installer application and from the
    system it runs on.  None of its own operations changes these; the
    installer or the outside world may change them between two calls.

    [env_ok history e] is the environment's verdict on the operation [e]
    attempted after [history]: [false] makes [e] fail.  Every failure that
    the file tree alone does not decide (a command's exit status, a missing
    parent directory, a permission, a busy mount) comes from it. *)
Record Env := {
  root : string;                  (* app.root *)
  dry_run : bool;                 (* app.opts.dry_run *)
  has_network : bool;             (* app.base_model.network.has_network *)
  mirror_config : string;         (* yaml.dump({'apt': app.base_model.mirror.config}) *)
  utcnow : string;                (* str(datetime.datetime.utcnow()) *)
  codename : string;              (* lsb_release()['codename'] *)
  tempdir : string;               (* tempfile.gettempdir() *)
  env_ok : list event → event → bool;
}.

Definition set_has_network (b : bool) (e : Env) : Env :=
  {| root := root e; dry_run := dry_run e; has_network := b;
     mirror_config := mirror_config e; utcnow := utcnow e;
     codename := codename e; tempdir := tempdir e; env_ok := env_ok e |}.

Definition set_dry_run (b : bool) (e : Env) : Env :=
  {| root := root e; dry_run := b; has_network := has_network e;
     mirror_config := mirror_config e; utcnow := utcnow e;
     codename := codename e; tempdir := tempdir e; env_ok := env_ok e |}.

(** The world of one stager.

    [fs] is the file tree as the stager's own file operations see and leave
    it.  Commands run through the command runner and through curtin are
    opaque: the model records that they were issued, in [trace], and whether
    they succeeded; what they do to files is not part of it.

    [trace] lists the operations attempted so far, oldest first, the failed
    ones included. *)
Record World := {
  env : Env;
  tmp_names : list tmpchars;      (* the names mkdtemp will draw, in order *)
  fs : gmap string node;
  trace : list event;
}.

Definition set_env (e : Env) (w : World) : World :=
  {| env := e; tmp_names := tmp_names w; fs := fs w; trace := trace w |}.

Definition set_fs (f : gmap string node) (w : World) : World :=
  {| env := env w; tmp_names := tmp_names w; fs := f; trace := trace w |}.

Definition set_tmp_names (l : list tmpchars) (w : World) : World :=
  {| env := env w; tmp_names := l; fs := fs w; trace := trace w |}.

Definition set_trace (t : list event) (w : World) : World :=
  {| env := env w; tmp_names := tmp_names w; fs := fs w; trace := t |}.

(** ** The object *)

Record AptConfigurer := {
  target : string;
  _mounts : list string;
  _tdirs : list string;
}.

(** [AptConfigurer.__init__]. *)
Definition init (tgt : string) : AptConfigurer :=
  {| target := tgt; _mounts := []; _tdirs := [] |}.

Record State := {
  self : AptConfigurer;
  world : World;
}.

Definition set_world (w : World) (st : State) : State :=
  {| self := self st; world := w |}.

Definition set_self (a : AptConfigurer) (st : State) : State :=
  {| self := a; world := world st |}.

(** ** The monad *)

Inductive outcome (A : Type) :=
| Ok (a : A)
| Raise (e : exn).
Arguments Ok {A} a.
Arguments Raise {A} e.

Definition M (A : Type) : Type := State → outcome A * State.

Definition ret {A} (a : A) : M A := λ st, (Ok a, st).

Definition raise {A} (e : exn) : M A := λ st, (Raise e, st).

Definition bind {A B} (m : M A) (f : A → M B) : M B := λ st,
  match m st with
  | (Ok a, st') => f a st'
  | (Raise e, st') => (Raise e, st')
  end.

Declare Scope apt_scope.
Delimit Scope apt_scope with apt.
Notation "x <- c ;; k" := (bind c (λ x, k))
  (at level 100, c at next level, k at level 200, right associativity) : apt_scope.
Notation "c ;; k" := (bind c (λ _, k))
  (at level 100, k at level 200, right associativity) : apt_scope.
Local Open Scope apt_scope.

Definition get_self : M AptConfigurer := λ st, (Ok (self st), st).
Definition get_world : M World := λ st, (Ok (world st), st).
Definition modify_self (f : AptConfigurer → AptConfigurer) : M unit :=
  λ st, (Ok tt, set_self (f (self st)) st).
Definition modify_world (f : World → World) : M unit :=
  λ st, (Ok tt, set_world (f (world st)) st).

(** A [for] loop over a list whose body may raise. *)
Fixpoint for_each {A} (l : list A) (body : A → M unit) : M unit :=
  match l with
  | [] => ret tt
  | x :: l' => body x ;; for_each l' body
  end.

(** ** The environment's operations *)

(** Log the attempt and ask the environment whether it goes through. *)
Definition log (e : event) (st : State) : State :=
  set_world (set_trace (trace (world st) ++ [e]) (world st)) st.

Definition attempt (e : event) : M unit := λ st,
  if env_ok (env (world st)) (trace (world st)) e
  then (Ok tt, log e st)
  else (Raise (fault_exn e), log e st).

Definition command_runner_run (argv : list string) : M unit :=
  attempt (EvRun argv).

Definition run_curtin_command (args : list string) (config : option string) : M unit :=
  attempt (EvCurtin args config).

Definition note_data_for_apport (key path : string) : M unit :=
  attempt (EvApport key path).

Definition open_w_write (p content : string) : M unit :=
  attempt (EvOpenW p content) ;;
  w <- get_world ;;
  match fs w !! p with
  | Some Dir => raise (IsADirectoryError p)
  | _ => modify_world (set_fs (<[p := File content]> (fs w)))
  end.

Definition write_file (p content : string) : M unit :=
  attempt (EvWriteFile p content) ;;
  w <- get_world ;;
  match fs w !! p with
  | Some Dir => raise (IsADirectoryError p)
  | _ => modify_world (set_fs (<[p := File content]> (fs w)))
  end.

Definition os_mkdir (p : string) : M unit :=
  attempt (EvMkdir p) ;;
  w <- get_world ;;
  match fs w !! p with
  | Some _ => raise (FileExistsError p)
  | None => modify_world (set_fs (<[p := Dir]> (fs w)))
  end.

Definition os_path_exists (p : string) : M bool :=
  w <- get_world ;;
  ret (bool_decide (is_Some (fs w !! p))).

Definition os_unlink (p : string) : M unit :=
  attempt (EvUnlink p) ;;
  w <- get_world ;;
  match fs w !! p with
  | None => raise (FileNotFoundError p)
  | Some Dir => raise (IsADirectoryError p)
  | Some (File _) => modify_world (set_fs (delete p (fs w)))
  end.

(** Move the tree rooted at [src] to [dst]. *)
Definition rebase (src dst p : string) : string :=
  if is_under src p
  then dst +:+ String.substring (String.length src) (String.length p - String.length src) p
  else p.

Definition move_tree (src dst : string) (m : gmap string node) : gmap string node :=
  list_to_map ((λ pn, (rebase src dst pn.1, pn.2)) <$> map_to_list m).

Definition os_rename (src dst : string) : M unit :=
  attempt (EvRename src dst) ;;
  w <- get_world ;;
  match fs w !! src with
  | None => raise (FileNotFoundError src)
  | Some (File c) =>
      match fs w !! dst with
      | Some Dir => raise (IsADirectoryError dst)
      | _ => modify_world (set_fs (<[dst := File c]> (delete src (fs w))))
      end
  | Some Dir =>
      match fs w !! dst with
      | Some (File _) => raise (NotADirectoryError dst)
      | _ =>
          if dir_empty dst (fs w)
          then modify_world (set_fs (move_tree src dst (fs w)))
          else raise (DirectoryNotEmpty dst)
      end
  end.

Definition shutil_rmtree (d : string) : M unit :=
  attempt (EvRmtree d) ;;
  w <- get_world ;;
  match fs w !! d with
  | None => raise (FileNotFoundError d)
  | Some (File _) => raise (NotADirectoryError d)
  | Some Dir => modify_world (set_fs (filter (λ pn, is_under d pn.1 = false) (fs w)))
  end.

Definition os_rmdir (d : string) : M unit :=
  attempt (EvRmdir d) ;;
  w <- get_world ;;
  match fs w !! d with
  | None => raise (FileNotFoundError d)
  | Some (File _) => raise (NotADirectoryError d)
  | Some Dir =>
      if dir_empty d (fs w)
      then modify_world (set_fs (delete d (fs w)))
      else raise (DirectoryNotEmpty d)
  end.

(** [tempfile.mkdtemp] tries candidate names until one is free. *)
Fixpoint pick_fresh (dir : string) (f : gmap string node) (cands : list tmpchars)
  : option (string * list tmpchars) :=
  match cands with
  | [] => None
  | c :: cs =>
      let p := path_join dir ["tmp" +:+ tmpchars_str c] in
      match f !! p with
      | None => Some (p, cs)
      | Some _ => pick_fresh dir f cs
      end
  end.

Definition tempfile_mkdtemp : M string :=
  attempt EvMkdtemp ;;
  w <- get_world ;;
  match pick_fresh (tempdir (env w)) (fs w) (tmp_names w) with
  | None => raise (FileExistsError (tempdir (env w)))
  | Some (p, rest) =>
      modify_world (λ w, set_tmp_names rest (set_fs (<[p := Dir]> (fs w)) w)) ;;
      ret p
  end.

Definition lsb_release_codename : M string :=
  w <- get_world ;; ret (codename (env w)).

(** ** The methods of [AptConfigurer] *)

Definition tdir : M string :=
  d <- tempfile_mkdtemp ;;
  modify_self (λ a, {| target := target a; _mounts := _mounts a;
                       _tdirs := _tdirs a ++ [d] |}) ;;
  ret d.

Definition tpath (a : AptConfigurer) (args : list string) : string :=
  path_join (target a) args.
Arguments tpath : simpl never.

Definition mount (device mountpoint : string) (options type : option string) : M unit :=
  let opts := match options with Some o => ["-o"; o] | None => [] end in
  let opts := opts ++ match type with Some t => ["-t"; t] | None => [] end in
  command_runner_run (["mount"] ++ opts ++ [device; mountpoint]) ;;
  modify_self (λ a, {| target := target a; _mounts := _mounts a ++ [mountpoint];
                       _tdirs := _tdirs a |}).

Definition unmount (mountpoint : string) : M unit :=
  command_runner_run ["umount"; mountpoint].

Definition setup_overlay (dir : string) : M unit :=
  tdir <- tdir ;;
  let w := tdir +:+ "/work" in
  let u := tdir +:+ "/upper" in
  for_each [w; u] os_mkdir ;;
  mount "overlay" dir
    (Some ("lowerdir=" +:+ dir +:+ ",upperdir=" +:+ u +:+ ",workdir=" +:+ w))
    (Some "overlay").

Definition configure : M unit :=
  a <- get_self ;;
  w <- get_world ;;
  let config_location :=
    path_join (root (env w)) ["var/log/installer/subiquity-curtin-apt.conf"] in
  let datestr := "# Autogenerated by Subiquity: " +:+ utcnow (env w) +:+ " UTC" +:+ nl in
  open_w_write config_location (datestr +:+ mirror_config (env w)) ;;
  note_data_for_apport "CurtinAptConfig" config_location ;;
  run_curtin_command ["apt-config"; "-t"; tpath a []] (Some config_location) ;;
  setup_overlay (tpath a ["etc/apt"]) ;;
  os_mkdir (tpath a ["cdrom"]) ;;
  mount "/cdrom" (tpath a ["cdrom"]) (Some "bind") None ;;
  w <- get_world ;;
  (if has_network (env w)
   then os_rename (tpath a ["etc/apt/sources.list"])
                  (tpath a ["etc/apt/sources.list.d/original.list"])
   else
     let proxy_path := tpath a ["etc/apt/apt.conf.d/90curtin-aptproxy"] in
     ex <- os_path_exists proxy_path ;;
     (if ex then os_unlink proxy_path else ret tt) ;;
     setup_overlay (tpath a ["var/lib/apt/lists"])) ;;
  codename <- lsb_release_codename ;;
  write_file (tpath a ["etc/apt/sources.list"])
    ("deb [check-date=no] file:///cdrom " +:+ codename +:+ " main restricted" +:+ nl) ;;
  run_curtin_command
    ["in-target"; "-t"; tpath a []; "--"; "apt-get"; "update"] None.

Definition deconfigure : M unit :=
  a <- get_self ;;
  for_each (rev (_mounts a)) unmount ;;
  a <- get_self ;;
  for_each (_tdirs a) shutil_rmtree ;;
  w <- get_world ;;
  (if negb (dry_run (env w)) then os_rmdir (tpath a ["cdrom"]) else ret tt) ;;
  w <- get_world ;;
  if has_network (env w)
  then run_curtin_command
         ["in-target"; "-t"; tpath a []; "--"; "apt-get"; "update"] None
  else ret tt.

(** ** Notions used in the statements *)

(** The operations attempted between two states of one run. *)
Definition events_since (st st' : State) : list event :=
  drop (length (trace (world st))) (trace (world st')).

(** [st'] is [st] after attempting exactly [evs], the object and the
    environment untouched. *)
Definition steps (evs : list event) (st st' : State) : Prop :=
  self st' = self st ∧ env (world st') = env (world st) ∧
  trace (world st') = trace (world st) ++ evs.

Definition umount_ev (m : string) : event := EvRun ["umount"; m].

Definition refresh_args (a : AptConfigurer) : list string :=
  ["in-target"; "-t"; tpath a []; "--"; "apt-get"; "update"].

Definition refresh_ev (a : AptConfigurer) : event := EvCurtin (refresh_args a) None.

Definition overlay_mount_ev (dir d : string) : event :=
  EvRun ["mount"; "-o";
         "lowerdir=" +:+ dir +:+ ",upperdir=" +:+ (d +:+ "/upper") +:+
           ",workdir=" +:+ (d +:+ "/work");
         "-t"; "overlay"; "overlay"; dir].

(** What [deconfigure] attempts when nothing fails. *)
Definition deconfigure_plan (st : State) : list event :=
  (umount_ev <$> rev (_mounts (self st))) ++
  (EvRmtree <$> _tdirs (self st)) ++
  (if dry_run (env (world st)) then [] else [EvRmdir (tpath (self st) ["cdrom"])]) ++
  (if has_network (env (world st)) then [refresh_ev (self st)] else []).

(** The same state in another environment. *)
Definition with_env (e : Env) (st : State) : State :=
  set_world (set_env e (world st)) st.

(** The state with its trace replaced. *)
Definition with_trace (t : list event) (st : State) : State :=
  set_world (set_trace t (world st)) st.

(** The effects of the successful operations on a state. *)
Definition put_fs (p : string) (n : node) (st : State) : State :=
  set_world (set_fs (<[p := n]> (fs (world st))) (world st)) st.

Definition del_fs (p : string) (st : State) : State :=
  set_world (set_fs (delete p (fs (world st))) (world st)) st.

Definition drawn (rest : list tmpchars) (st : State) : State :=
  set_world (set_tmp_names rest (world st)) st.

Definition add_tdir (d : string) (st : State) : State :=
  set_self {| target := target (self st); _mounts := _mounts (self st);
              _tdirs := _tdirs (self st) ++ [d] |} st.

Definition add_mount (m : string) (st : State) : State :=
  set_self {| target := target (self st); _mounts := _mounts (self st) ++ [m];
              _tdirs := _tdirs (self st) |} st.

(** The state a successful [setup_overlay dir] leaves when [mkdtemp] drew
    the directory [d] and left the names [rest]. *)
Definition overlay_state (dir d : string) (rest : list tmpchars) (st : State) : State :=
  add_mount dir
    (log (overlay_mount_ev dir d)
       (put_fs (d +:+ "/upper") Dir
          (log (EvMkdir (d +:+ "/upper"))
             (put_fs (d +:+ "/work") Dir
                (log (EvMkdir (d +:+ "/work"))
                   (add_tdir d (drawn rest (put_fs d Dir (log EvMkdtemp st))))))))).

(** What [posixpath.join] puts in front of a relative component. *)
Definition join_prefix (t : string) : string :=
  if String.eqb t "" || ends_with_sep t then t else t +:+ "/".

(** The name [mkdtemp] makes of eight drawn characters. *)
Definition tmp_path (dir : string) (c : tmpchars) : string :=
  path_join dir ["tmp" +:+ tmpchars_str c].

(** A call of [mount]: device, mountpoint, options, type. *)
Definition mount_request : Type := string * string * option string * option string.

Definition mountpoint_of (r : mount_request) : string := r.1.1.2.

(** Calls of [mount], one after the other. *)
Definition mount_calls (reqs : list mount_request) : M unit :=
  for_each reqs (λ r, mount r.1.1.1 r.1.1.2 r.1.2 r.2).

(** The four statements of [deconfigure], one by one. *)
Definition unmount_all : M unit :=
  a <- get_self ;; for_each (rev (_mounts a)) unmount.

Definition release_all : M unit :=
  a <- get_self ;; for_each (_tdirs a) shutil_rmtree.

Definition remove_media_dir : M unit :=
  a <- get_self ;;
  w <- get_world ;;
  if negb (dry_run (env w)) then os_rmdir (tpath a ["cdrom"]) else ret tt.

Definition final_refresh : M unit :=
  a <- get_self ;;
  w <- get_world ;;
  if has_network (env w)
  then run_curtin_command
         ["in-target"; "-t"; tpath a []; "--"; "apt-get"; "update"] None
  else ret tt.

(** The two loops of [deconfigure]. *)
Definition unwind_loops : M unit :=
  unmount_all ;; release_all.

(** [deconfigure] up to, and without, its last statement. *)
Definition unwind : M unit :=
  unwind_loops ;; remove_media_dir.

(** The index of the first of [evs] that the environment refuses when they
    are attempted in turn after [hist]; [None] when it accepts them all. *)
Fixpoint first_refused (ok : list event → event → bool) (hist evs : list event)
  : option nat :=
  match evs with
  | [] => None
  | e :: evs' =>
      if ok hist e then S <$> first_refused ok (hist ++ [e]) evs' else Some 0
  end.

(** A computation that does not look at the environment beyond its
    verdicts: in another environment with the same verdicts it runs the
    same way. *)
Definition env_blind {A} (m : M A) : Prop :=
  ∀ e' st r st1, env_ok e' = env_ok (env (world st)) → m st = (r, st1) →
    env (world st1) = env (world st) ∧ m (with_env e' st) = (r, with_env e' st1).

(** ** A concrete installation

    The target tree is mounted at [/target]; curtin has left a source list
    and a proxy fragment in it. *)

Definition always_ok : list event → event → bool := λ _ _, true.

(** The environment that refuses [bad] and nothing else. *)
Definition refusing (bad : event) : list event → event → bool :=
  λ _ e, negb (bool_decide (e = bad)).

Definition demo_env (net dry : bool) (ok : list event → event → bool) : Env :=
  {| root := "/"; dry_run := dry; has_network := net;
     mirror_config := "apt: {preserve_sources_list: false}" +:+ nl;
     utcnow := "2021-10-18 09:30:00.000000"; codename := "focal";
     tempdir := "/tmp"; env_ok := ok |}.

Definition demo_fs : gmap string node :=
  {[ "/target/etc/apt/sources.list" :=
       File ("deb http://archive.ubuntu.com/ubuntu focal main restricted" +:+ nl);
     "/target/etc/apt/apt.conf.d/90curtin-aptproxy" :=
       File ("Acquire::http::Proxy http://squid.internal:3128;" +:+ nl) ]}.

Definition demo_names : list tmpchars :=
  [TmpChars "a" "a" "a" "a" "a" "a" "a" "a"; TmpChars "b" "b" "b" "b" "b" "b" "b" "b"].

Definition demo_start (net dry : bool) (ok : list event → event → bool) : State :=
  {| self := init "/target";
     world := {| env := demo_env net dry ok; tmp_names := demo_names;
                 fs := demo_fs; trace := [] |} |}.

(** ** The course of [configure] *)

(** What a [setup_overlay] over [dir] that draws the directory [d] attempts. *)
Definition overlay_plan (dir d : string) : list event :=
  [EvMkdtemp; EvMkdir (d +:+ "/work"); EvMkdir (d +:+ "/upper");
   overlay_mount_ev dir d].

(** What [configure] attempts when nothing fails: [d1] and [d2] are the
    temp directories it draws, [unl] tells whether it finds a proxy fragment
    to unlink. *)
Definition configure_plan (st : State) (d1 d2 : string) (unl : bool) : list event :=
  let a := self st in
  let e := env (world st) in
  let conf := path_join (root e) ["var/log/installer/subiquity-curtin-apt.conf"] in
  let text :=
    ("# Autogenerated by Subiquity: " +:+ utcnow e +:+ " UTC" +:+ nl) +:+
    mirror_config e in
  let src := tpath a ["etc/apt/sources.list"] in
  [EvOpenW conf text; EvApport "CurtinAptConfig" conf;
   EvCurtin ["apt-config"; "-t"; tpath a []] (Some conf)] ++
  overlay_plan (tpath a ["etc/apt"]) d1 ++
  [EvMkdir (tpath a ["cdrom"]);
   EvRun ["mount"; "-o"; "bind"; "/cdrom"; tpath a ["cdrom"]]] ++
  (if has_network e
   then [EvRename src (tpath a ["etc/apt/sources.list.d/original.list"])]
   else (if unl then [EvUnlink (tpath a ["etc/apt/apt.conf.d/90curtin-aptproxy"])]
         else []) ++
        overlay_plan (tpath a ["var/lib/apt/lists"]) d2) ++
  [EvWriteFile src
     ("deb [check-date=no] file:///cdrom " +:+ codename e +:+ " main restricted" +:+ nl);
   refresh_ev a].

(** The mounts a complete [configure] records, in order. *)
Definition mounts_plan (st : State) : list string :=
  [tpath (self st) ["etc/apt"]; tpath (self st) ["cdrom"]] ++
  (if has_network (env (world st)) then []
   else [tpath (self st) ["var/lib/apt/lists"]]).

(** The temp directories a complete [configure] records, in order. *)
Definition tdirs_plan (st : State) (d1 d2 : string) : list string :=
  d1 :: (if has_network (env (world st)) then [] else [d2]).

Definition is_ok {A} (r : outcome A) : bool :=
  match r with Ok _ => true | Raise _ => false end.

(** [st'] is [st] after attempting [evs] and recording the mounts [ms] and
    the temp directories [ds]; target and environment untouched. *)
Definition grows (evs : list event) (ms ds : list string) (st st' : State) : Prop :=
  env (world st') = env (world st) ∧ target (self st') = target (self st) ∧
  trace (world st') = trace (world st) ++ evs ∧
  _mounts (self st') = _mounts (self st) ++ ms ∧
  _tdirs (self st') = _tdirs (self st) ++ ds.

(** [st'] is [st] after a run that followed the plan [pe] of operations,
    [pm] of mounts to record and [pd] of temp directories to record, as far
    as it got: to the end when [ok]. *)
Definition within (pe : list event) (pm pd : list string) (ok : bool)
    (st st' : State) : Prop :=
  ∃ evs ms ds,
    grows evs ms ds st st' ∧
    evs `prefix_of` pe ∧ ms `prefix_of` pm ∧ ds `prefix_of` pd ∧
    (ok = true → evs = pe ∧ ms = pm ∧ ds = pd).

(** The pool is sound: its entries are distinct directories of the tree. *)
Definition pool_ok (st : State) : Prop :=
  NoDup (_tdirs (self st)) ∧
  ∀ d, d ∈ _tdirs (self st) → fs (world st) !! d = Some Dir.

(** ** The prober ([subiquitycore/prober.py]) *)

(** What [Prober.get_storage] returns or raises.  A live probe of the
    hardware is outside the model: it is recorded with the probe types it
    was asked for. *)
Inductive storage_result (V : Type) :=
| Stored (r : gmap string V)
| KeyError (key : string)
| LiveProbe (probe_types : option (gset string)).
Arguments Stored {V} r.
Arguments KeyError {V} key.
Arguments LiveProbe {V} probe_types.

(** The loop of [get_storage]: every key of the saved section that is not
    among the probe types gets the empty mapping [empty] in the copy [r]. *)
Definition blank_unrequested {V} (empty : V) (probe_types : gset string)
    (storage r : gmap string V) : gmap string V :=
  foldl (λ r k, if decide (k ∈ probe_types) then r else <[k := empty]> r)
        r (map_to_list storage).*1.

(** [Prober.get_storage].  The saved machine configuration is a mapping from
    section names to sections, each a mapping from probe type to data;
    [empty] is the value [{}]. *)
Definition get_storage {V} (empty : V)
    (saved_config : option (gmap string (gmap string V)))
    (probe_types : option (gset string)) : storage_result V :=
  match saved_config with
  | Some config =>
      match config !! "storage" with
      | None => KeyError "storage"
      | Some storage =>
          let r := storage in
          Stored (match probe_types with
                  | Some types => blank_unrequested empty types storage r
                  | None => r
                  end)
      end
  | None => LiveProbe probe_types
  end.

(** * Running the model *)

(** ** The monad and the trace *)

Lemma bind_Ok {A B} (m : M A) (f : A → M B) st b st2 :
  bind m f st = (Ok b, st2) →
  ∃ a st1, m st = (Ok a, st1) ∧ f a st1 = (Ok b, st2).
Proof.
  unfold bind. destruct (m st) as [[a|e] st1]; [eauto | discriminate].
Qed.

Lemma bind_eq_Ok {A B} (m : M A) (f : A → M B) st a st1 :
  m st = (Ok a, st1) → bind m f st = f a st1.
Proof. unfold bind. by intros ->. Qed.

Lemma bind_eq_Raise {A B} (m : M A) (f : A → M B) st e st1 :
  m st = (Raise e, st1) → bind m f st = (Raise e, st1).
Proof. unfold bind. by intros ->. Qed.

Lemma steps_refl st : steps [] st st.
Proof. unfold steps. by rewrite app_nil_r. Qed.

Lemma steps_trans evs1 evs2 st st1 st2 :
  steps evs1 st st1 → steps evs2 st1 st2 → steps (evs1 ++ evs2) st st2.
Proof.
  intros (Hs1 & He1 & Ht1) (Hs2 & He2 & Ht2). unfold steps.
  rewrite Hs2, Hs1, He2, He1, Ht2, Ht1. by rewrite app_assoc.
Qed.

Lemma steps_events evs st st' : steps evs st st' → events_since st st' = evs.
Proof.
  intros (_ & _ & Ht). unfold events_since. rewrite Ht. apply drop_app_length.
Qed.

Lemma trace_events st st' evs :
  trace (world st') = trace (world st) ++ evs → events_since st st' = evs.
Proof. intros Ht. unfold events_since. rewrite Ht. apply drop_app_length. Qed.

Lemma attempt_Ok e st st' :
  attempt e st = (Ok tt, st') →
  env_ok (env (world st)) (trace (world st)) e = true ∧ st' = log e st.
Proof. unfold attempt. case_match; naive_solver. Qed.

Lemma attempt_steps e st r st' : attempt e st = (r, st') → steps [e] st st'.
Proof. unfold attempt. case_match; intros [= <- <-]; done. Qed.

Ltac run_cases :=
  intros; repeat (simpl in *; case_match; simplify_eq/=); try done.

Lemma unmount_steps m st r st' :
  unmount m st = (r, st') → steps [umount_ev m] st st'.
Proof. apply attempt_steps. Qed.

Lemma run_curtin_command_steps args config st r st' :
  run_curtin_command args config st = (r, st') → steps [EvCurtin args config] st st'.
Proof. apply attempt_steps. Qed.

Lemma shutil_rmtree_steps d st r st' :
  shutil_rmtree d st = (r, st') → steps [EvRmtree d] st st'.
Proof.
  unfold shutil_rmtree, bind, attempt, get_world, modify_world, raise, steps.
  run_cases.
Qed.

Lemma os_rmdir_steps d st r st' :
  os_rmdir d st = (r, st') → steps [EvRmdir d] st st'.
Proof.
  unfold os_rmdir, bind, attempt, get_world, modify_world, raise, steps.
  run_cases.
Qed.

(** A loop whose body attempts one operation per element attempts them in
    the order of the list and stops at the first that raises. *)
Lemma for_each_steps {A} (body : A → M unit) (ev : A → event) l :
  (∀ x st r st', body x st = (r, st') → steps [ev x] st st') →
  ∀ st r st', for_each l body st = (r, st') →
  ∃ evs, steps evs st st' ∧ evs `prefix_of` (ev <$> l) ∧
         (r = Ok tt → evs = ev <$> l).
Proof.
  intros Hbody. induction l as [|x l IH]; intros st r st' Hrun; simpl in Hrun.
  - injection Hrun as <- <-. exists []. split; [apply steps_refl|]. done.
  - unfold bind in Hrun. destruct (body x st) as [[[]|e] st1] eqn:Hx.
    + apply IH in Hrun as (evs & Hs & Hpre & Hok). exists (ev x :: evs).
      split; [apply (steps_trans [ev x] _ st st1); eauto|].
      split; [by apply prefix_cons|]. intros ->. simpl. by rewrite Hok.
    + injection Hrun as <- <-. exists [ev x].
      split; [eauto|]. split; [|done]. apply prefix_cons, prefix_nil.
Qed.

Lemma steps_self evs st st' : steps evs st st' → self st' = self st.
Proof. by intros (? & _). Qed.

Lemma steps_env evs st st' : steps evs st st' → env (world st') = env (world st).
Proof. by intros (_ & ? & _). Qed.

(** [deconfigure] is its four statements in sequence. *)
Lemma deconfigure_phases st :
  deconfigure st =
  (unmount_all ;; release_all ;; remove_media_dir ;; final_refresh) st.
Proof.
  unfold deconfigure, unmount_all, release_all, remove_media_dir, final_refresh,
    bind, get_self, get_world.
  destruct (for_each (rev (_mounts (self st))) unmount st) as [[[]|e1] st1] eqn:H1;
    [|done].
  apply (for_each_steps _ umount_ev) in H1 as (evs1 & Hs1 & _);
    [|intros; by eapply unmount_steps].
  rewrite (steps_self _ _ _ Hs1).
  destruct (for_each (_tdirs (self st)) shutil_rmtree st1) as [[[]|e2] st2] eqn:H2;
    [|done].
  apply (for_each_steps _ EvRmtree) in H2 as (evs2 & Hs2 & _);
    [|intros; by eapply shutil_rmtree_steps].
  rewrite (steps_self _ _ _ Hs2), (steps_self _ _ _ Hs1).
  destruct (negb (dry_run (env (world st2)))); simpl.
  2:{ by rewrite (steps_self _ _ _ Hs2), (steps_self _ _ _ Hs1). }
  destruct (os_rmdir (tpath (self st) ["cdrom"]) st2) as [[[]|e3] st3] eqn:H3;
    [|done].
  apply os_rmdir_steps in H3.
  by rewrite (steps_self _ _ _ H3), (steps_self _ _ _ Hs2), (steps_self _ _ _ Hs1).
Qed.

Lemma unmount_all_steps st r st' :
  unmount_all st = (r, st') →
  ∃ evs, steps evs st st' ∧ evs `prefix_of` (umount_ev <$> rev (_mounts (self st))) ∧
         (r = Ok tt → evs = umount_ev <$> rev (_mounts (self st))).
Proof.
  unfold unmount_all, bind, get_self. apply for_each_steps.
  intros; by eapply unmount_steps.
Qed.

Lemma release_all_steps st r st' :
  release_all st = (r, st') →
  ∃ evs, steps evs st st' ∧ evs `prefix_of` (EvRmtree <$> _tdirs (self st)) ∧
         (r = Ok tt → evs = EvRmtree <$> _tdirs (self st)).
Proof.
  unfold release_all, bind, get_self. apply for_each_steps.
  intros; by eapply shutil_rmtree_steps.
Qed.

Lemma remove_media_dir_steps st r st' :
  remove_media_dir st = (r, st') →
  steps (if dry_run (env (world st)) then [] else [EvRmdir (tpath (self st) ["cdrom"])])
        st st'.
Proof.
  unfold remove_media_dir, bind, get_self, get_world.
  destruct (dry_run (env (world st))); simpl.
  - intros [= <- <-]. apply steps_refl.
  - apply os_rmdir_steps.
Qed.

Lemma final_refresh_steps st r st' :
  final_refresh st = (r, st') →
  steps (if has_network (env (world st)) then [refresh_ev (self st)] else []) st st'.
Proof.
  unfold final_refresh, bind, get_self, get_world.
  destruct (has_network (env (world st))).
  - apply run_curtin_command_steps.
  - intros [= <- <-]. apply steps_refl.
Qed.

(** What is left of [deconfigure] once the unmount loop is through. *)
Lemma deconfigure_tail_run st r st' :
  (release_all ;; remove_media_dir ;; final_refresh) st = (r, st') →
  ∃ evs, steps evs st st' ∧
         evs `prefix_of`
           (EvRmtree <$> _tdirs (self st)) ++
           (if dry_run (env (world st)) then [] else [EvRmdir (tpath (self st) ["cdrom"])]) ++
           (if has_network (env (world st)) then [refresh_ev (self st)] else []) ∧
         (r = Ok tt →
          evs = (EvRmtree <$> _tdirs (self st)) ++
                (if dry_run (env (world st)) then [] else [EvRmdir (tpath (self st) ["cdrom"])]) ++
                (if has_network (env (world st)) then [refresh_ev (self st)] else [])).
Proof.
  unfold bind at 1. destruct (release_all st) as [[[]|e2] st2] eqn:H2;
    apply release_all_steps in H2 as (evs2 & Hs2 & Hp2 & Hok2).
  2:{ intros [= <- <-]. exists evs2. split; [done|]. split; [|done].
      by apply prefix_app_r. }
  rewrite (Hok2 eq_refl) in Hs2. clear Hok2 Hp2 evs2.
  unfold bind. destruct (remove_media_dir st2) as [[[]|e3] st3] eqn:H3;
    apply remove_media_dir_steps in H3;
    rewrite (steps_self _ _ _ Hs2), (steps_env _ _ _ Hs2) in H3.
  2:{ intros [= <- <-]. eexists. split; [by eapply steps_trans|]. split; [|done].
      apply prefix_app. by apply prefix_app_r. }
  intros H4. apply final_refresh_steps in H4.
  rewrite (steps_self _ _ _ H3), (steps_env _ _ _ H3),
    (steps_self _ _ _ Hs2), (steps_env _ _ _ Hs2) in H4.
  eexists. split; [eapply steps_trans; [exact Hs2|by eapply steps_trans]|]. done.
Qed.

(** [deconfigure] walks through its plan and stops at the first operation
    that raises. *)
Lemma deconfigure_run st r st' :
  deconfigure st = (r, st') →
  ∃ evs, steps evs st st' ∧ evs `prefix_of` deconfigure_plan st ∧
         (r = Ok tt → evs = deconfigure_plan st).
Proof.
  rewrite deconfigure_phases. unfold bind at 1, deconfigure_plan.
  destruct (unmount_all st) as [[[]|e1] st1] eqn:H1;
    apply unmount_all_steps in H1 as (evs1 & Hs1 & Hp1 & Hok1).
  2:{ intros [= <- <-]. exists evs1. split; [done|]. split; [|done].
      by apply prefix_app_r. }
  rewrite (Hok1 eq_refl) in Hs1. clear Hok1 Hp1 evs1.
  intros (evs & Hs & Hp & Hok)%deconfigure_tail_run.
  rewrite (steps_self _ _ _ Hs1), (steps_env _ _ _ Hs1) in Hp, Hok.
  eexists. split; [by eapply steps_trans|].
  split; [by apply prefix_app|]. intros ->. by rewrite Hok.
Qed.

(** The unmount loop against the verdicts of the environment. *)
Lemma unmount_loop_accepted ms st :
  first_refused (env_ok (env (world st))) (trace (world st)) (umount_ev <$> ms) = None →
  for_each ms unmount st =
  (Ok tt, with_trace (trace (world st) ++ (umount_ev <$> ms)) st).
Proof.
  revert st. induction ms as [|m ms IH]; intros st; simpl.
  - intros _. destruct st as [a []]. unfold ret, with_trace; simpl.
    by rewrite app_nil_r.
  - unfold bind, unmount, command_runner_run, attempt. fold (umount_ev m).
    destruct (env_ok _ _ (umount_ev m)) eqn:Hok; [|done].
    destruct (first_refused _ _ _) eqn:Hfr; [done|]. intros _.
    rewrite IH; [|done]. unfold with_trace, log; simpl. by rewrite <- app_assoc.
Qed.

Lemma unmount_loop_refused ms st i m :
  first_refused (env_ok (env (world st))) (trace (world st)) (umount_ev <$> ms) = Some i →
  ms !! i = Some m →
  for_each ms unmount st =
  (Raise (CalledProcessError ["umount"; m]),
   with_trace (trace (world st) ++ (umount_ev <$> take (S i) ms)) st).
Proof.
  revert st i. induction ms as [|m' ms IH]; intros st i; simpl; [done|].
  unfold bind, unmount, command_runner_run, attempt. fold (umount_ev m').
  destruct (env_ok _ _ (umount_ev m')) eqn:Hok.
  - destruct (first_refused _ _ _) as [j|] eqn:Hfr; [|done].
    intros [= <-] Hm. simpl in Hm. rewrite (IH _ j); [|done..].
    unfold with_trace, log; simpl. by rewrite <- app_assoc.
  - intros [= <-] [= <-]. by rewrite take_0.
Qed.

Lemma bind_assoc {A B C} (m : M A) (f : A → M B) (g : B → M C) st :
  bind (bind m f) g st = bind m (λ a, bind (f a) g) st.
Proof. unfold bind. by destruct (m st) as [[a|e] st1]. Qed.

Lemma deconfigure_unwind st : deconfigure st = (unwind ;; final_refresh) st.
Proof.
  rewrite deconfigure_phases. unfold unwind, unwind_loops.
  by rewrite !bind_assoc.
Qed.

Lemma unwind_loops_steps st r st' :
  unwind_loops st = (r, st') →
  ∃ evs, steps evs st st' ∧
         evs `prefix_of`
           (umount_ev <$> rev (_mounts (self st))) ++ (EvRmtree <$> _tdirs (self st)) ∧
         (r = Ok tt →
          evs = (umount_ev <$> rev (_mounts (self st))) ++
                (EvRmtree <$> _tdirs (self st))).
Proof.
  unfold unwind_loops, bind.
  destruct (unmount_all st) as [[[]|e1] st1] eqn:H1;
    apply unmount_all_steps in H1 as (evs1 & Hs1 & Hp1 & Hok1).
  2:{ intros [= <- <-]. exists evs1. split; [done|]. split; [|done].
      by apply prefix_app_r. }
  rewrite (Hok1 eq_refl) in Hs1. clear Hok1 Hp1 evs1.
  intros (evs2 & Hs2 & Hp2 & Hok2)%release_all_steps.
  rewrite (steps_self _ _ _ Hs1) in Hp2, Hok2.
  eexists. split; [by eapply steps_trans|].
  split; [by apply prefix_app|]. intros ->. by rewrite Hok2.
Qed.

Lemma remove_media_dir_dry st :
  dry_run (env (world st)) = true → remove_media_dir st = (Ok tt, st).
Proof.
  intros Hd. unfold remove_media_dir, bind, get_self, get_world. by rewrite Hd.
Qed.

(** How a run of [deconfigure] ends: in one of its loops, at the removal of
    the media directory, or after the network query. *)
Lemma deconfigure_shape st r st' :
  deconfigure st = (r, st') →
  let loops_plan :=
    (umount_ev <$> rev (_mounts (self st))) ++ (EvRmtree <$> _tdirs (self st)) in
  let rm := if dry_run (env (world st)) then []
            else [EvRmdir (tpath (self st) ["cdrom"])] in
  let refresh := if has_network (env (world st)) then [refresh_ev (self st)] else [] in
  (∃ e, r = Raise e ∧ unwind_loops st = (Raise e, st') ∧
        events_since st st' `prefix_of` loops_plan) ∨
  (∃ s12, unwind_loops st = (Ok tt, s12) ∧
     ((∃ e, r = Raise e ∧ remove_media_dir s12 = (Raise e, st') ∧
            events_since st st' = loops_plan ++ rm) ∨
      (∃ s3, remove_media_dir s12 = (Ok tt, s3) ∧ final_refresh s3 = (r, st') ∧
            events_since st st' = loops_plan ++ rm ++ refresh))).
Proof.
  rewrite deconfigure_unwind. unfold unwind. rewrite !bind_assoc.
  unfold bind at 1. simpl.
  destruct (unwind_loops st) as [[[]|e] s12] eqn:H12;
    pose proof H12 as (evs & Hs & Hp & Hok)%unwind_loops_steps.
  2:{ intros [= <- <-]. left. exists e. by rewrite (steps_events _ _ _ Hs). }
  rewrite (Hok eq_refl) in Hs. clear Hok Hp evs.
  intros Hrun. right. exists s12. split; [done|]. unfold bind in Hrun.
  destruct (remove_media_dir s12) as [[[]|e] s3] eqn:H3;
    pose proof H3 as Hs3%remove_media_dir_steps;
    rewrite (steps_self _ _ _ Hs), (steps_env _ _ _ Hs) in Hs3.
  2:{ injection Hrun as <- <-. left. exists e. split; [done|]. split; [done|].
      apply steps_events. by eapply steps_trans. }
  right. exists s3. split; [done|]. split; [done|].
  apply final_refresh_steps in Hrun.
  rewrite (steps_self _ _ _ Hs3), (steps_env _ _ _ Hs3),
    (steps_self _ _ _ Hs), (steps_env _ _ _ Hs) in Hrun.
  apply steps_events. eapply steps_trans; [exact Hs|]. by eapply steps_trans.
Qed.

(** *** Running in another environment *)

Lemma attempt_env_blind e : env_blind (attempt e).
Proof.
  intros e' st r st1 Hok. unfold attempt; simpl. rewrite Hok.
  case_match; intros [= <- <-]; done.
Qed.

Lemma shutil_rmtree_env_blind d : env_blind (shutil_rmtree d).
Proof.
  intros e' st r st1 Hok.
  unfold shutil_rmtree, bind, attempt, get_world, modify_world, raise; simpl.
  rewrite Hok. run_cases.
Qed.

Lemma os_rmdir_env_blind d : env_blind (os_rmdir d).
Proof.
  intros e' st r st1 Hok.
  unfold os_rmdir, bind, attempt, get_world, modify_world, raise; simpl.
  rewrite Hok. run_cases.
Qed.

Lemma for_each_env_blind {A} (body : A → M unit) l :
  (∀ x, env_blind (body x)) → env_blind (for_each l body).
Proof.
  intros Hbody e'. induction l as [|x l IH]; intros st r st1 Hok; simpl.
  - by intros [= <- <-].
  - unfold bind. destruct (body x st) as [[[]|e] st2] eqn:Hx;
      destruct (Hbody x e' _ _ _ Hok Hx) as [Henv ->].
    + intros Hrun. rewrite <- Henv in Hok.
      destruct (IH _ _ _ Hok Hrun) as [Henv' ->]. split; [congruence|done].
    + by intros [= <- <-].
Qed.

Lemma unmount_all_env_blind : env_blind unmount_all.
Proof.
  intros e' st r st1 Hok. unfold unmount_all, bind, get_self. simpl.
  apply for_each_env_blind; [|done]. intros m. apply attempt_env_blind.
Qed.

Lemma release_all_env_blind : env_blind release_all.
Proof.
  intros e' st r st1 Hok. unfold release_all, bind, get_self. simpl.
  apply for_each_env_blind; [|done]. apply shutil_rmtree_env_blind.
Qed.

Lemma bind_env_blind {A B} (m : M A) (f : A → M B) :
  env_blind m → (∀ a, env_blind (f a)) → env_blind (bind m f).
Proof.
  intros Hm Hf e' st r st1 Hok. unfold bind.
  destruct (m st) as [[a|e] st2] eqn:Hx; destruct (Hm e' _ _ _ Hok Hx) as [Henv ->].
  - intros Hrun. rewrite <- Henv in Hok.
    destruct (Hf a e' _ _ _ Hok Hrun) as [Henv' ->]. split; [congruence|done].
  - by intros [= <- <-].
Qed.

Lemma for_each_app {A} (body : A → M unit) l1 l2 st :
  for_each (l1 ++ l2) body st = (for_each l1 body ;; for_each l2 body) st.
Proof.
  revert st. induction l1 as [|x l1 IH]; intros st; simpl; [done|].
  rewrite bind_assoc. unfold bind in *.
  destruct (body x st) as [[[]|e] st1]; [apply IH|done].
Qed.

Lemma plan_tail_no_run a tds (dry net : bool) argv :
  EvRun argv ∉
    (EvRmtree <$> tds) ++
    (if dry then [] else [EvRmdir (tpath a ["cdrom"])]) ++
    (if net then [refresh_ev a] else []).
Proof.
  rewrite !elem_of_app, list_elem_of_fmap. unfold refresh_ev.
  intros [(? & ? & _)|[Hin|Hin]]; [done|destruct dry|destruct net];
    first [by apply elem_of_nil in Hin | by apply list_elem_of_singleton in Hin].
Qed.

Lemma plan_head_no_refresh a ms tds (dry : bool) :
  refresh_ev a ∉
    (umount_ev <$> ms) ++ (EvRmtree <$> tds) ++
    (if dry then [] else [EvRmdir (tpath a ["cdrom"])]).
Proof.
  rewrite !elem_of_app, !list_elem_of_fmap. unfold refresh_ev, umount_ev.
  intros [(? & ? & _)|[(? & ? & _)|Hin]]; [done..|destruct dry];
    first [by apply elem_of_nil in Hin | by apply list_elem_of_singleton in Hin].
Qed.

(** * Teardown *)

(** ** The mount ledger *)

(** C1, as stated, fails: after a complete [configure] and a complete
    [deconfigure] of the concrete installation the mount ledger still holds
    both mountpoints. *)
Lemma C1_ledger_not_emptied :
  let st1 := (configure (demo_start true false always_ok)).2 in
  (configure (demo_start true false always_ok)).1 = Ok tt ∧
  (deconfigure st1).1 = Ok tt ∧
  _mounts (self (deconfigure st1).2) = ["/target/etc/apt"; "/target/cdrom"] ∧
  _mounts (self (deconfigure st1).2) ≠ [].
Proof. vm_compute. by repeat split. Qed.

(** C1, amended: when [deconfigure] returns, every recorded mount has been
    unmounted, one [umount] per record in reverse order of insertion, and
    the mount ledger is what it was before the call: no record is removed. *)
Theorem deconfigure_keeps_mount_ledger st st' :
  deconfigure st = (Ok tt, st') →
  _mounts (self st') = _mounts (self st) ∧
  ∃ rest,
    events_since st st' = (umount_ev <$> rev (_mounts (self st))) ++ rest ∧
    ∀ argv, EvRun argv ∉ rest.
Proof.
  intros (evs & Hs & _ & Hok)%deconfigure_run. rewrite (steps_self _ _ _ Hs).
  split; [done|]. rewrite (steps_events _ _ _ Hs), (Hok eq_refl).
  eexists. split; [done|]. intros argv. apply plan_tail_no_run.
Qed.

Lemma deconfigure_keeps_mount_ledger_witness :
  let st := (configure (demo_start false false always_ok)).2 in
  _mounts (self (deconfigure st).2) =
    ["/target/etc/apt"; "/target/cdrom"; "/target/var/lib/apt/lists"] ∧
  ∃ rest,
    events_since st (deconfigure st).2 =
      [umount_ev "/target/var/lib/apt/lists"; umount_ev "/target/cdrom";
       umount_ev "/target/etc/apt"] ++ rest ∧
    ∀ argv, EvRun argv ∉ rest.
Proof.
  apply (deconfigure_keeps_mount_ledger
           (configure (demo_start false false always_ok)).2
           (deconfigure (configure (demo_start false false always_ok)).2).2).
  vm_compute. reflexivity.
Defined.

Lemma mount_records st st' device mountpoint options type :
  mount device mountpoint options type st = (Ok tt, st') →
  _mounts (self st') = _mounts (self st) ++ [mountpoint].
Proof.
  unfold mount, command_runner_run, bind, attempt, modify_self. run_cases.
Qed.

(** Successful calls of [mount] are recorded in the order they are made. *)
Lemma mount_calls_ledger reqs st st' :
  mount_calls reqs st = (Ok tt, st') →
  _mounts (self st') = _mounts (self st) ++ (mountpoint_of <$> reqs).
Proof.
  unfold mount_calls. revert st.
  induction reqs as [|r reqs IH]; intros st; simpl.
  - intros [= <-]. by rewrite app_nil_r.
  - intros ([] & st1 & Hm & Hrest)%bind_Ok.
    rewrite (IH _ Hrest), (mount_records _ _ _ _ _ _ Hm).
    by rewrite <- app_assoc.
Qed.

(** C5: successful [mount] calls are recorded in the order they are made,
    and [deconfigure] issues one [umount] per recorded mountpoint, latest
    first.  When the environment accepts them all, they are the only
    commands it runs, in exactly the reverse of the insertion order.  When
    it refuses the one at position [i] of that order, [deconfigure] raises
    that command's error at once: the trace ends with the refused [umount],
    no later mountpoint is unmounted and nothing else is attempted. *)
Theorem deconfigure_unmounts_in_reverse st :
  let ms := rev (_mounts (self st)) in
  let verdict :=
    first_refused (env_ok (env (world st))) (trace (world st)) (umount_ev <$> ms) in
  (∀ reqs st0, _mounts (self st0) = [] → mount_calls reqs st0 = (Ok tt, st) →
     ms = rev (mountpoint_of <$> reqs)) ∧
  (verdict = None →
   ∀ r st', deconfigure st = (r, st') →
   ∃ rest, events_since st st' = (umount_ev <$> ms) ++ rest ∧
           ∀ argv, EvRun argv ∉ rest) ∧
  (∀ i m, verdict = Some i → ms !! i = Some m →
   deconfigure st =
   (Raise (CalledProcessError ["umount"; m]),
    with_trace (trace (world st) ++ (umount_ev <$> take (S i) ms)) st)).
Proof.
  intros ms verdict. split; [|split].
  - intros reqs st0 Hfresh Hcalls. unfold ms.
    by rewrite (mount_calls_ledger _ _ _ Hcalls), Hfresh.
  - intros Hv r st'. rewrite deconfigure_phases. unfold bind at 1.
    change (unmount_all st) with (for_each ms unmount st).
    rewrite (unmount_loop_accepted _ _ Hv).
    intros (evs & Hs & [k Hp] & _)%deconfigure_tail_run.
    exists evs. split.
    + apply trace_events. destruct Hs as (_ & _ & ->). simpl.
      by rewrite <- app_assoc.
    + intros argv Hin.
      eapply plan_tail_no_run. rewrite Hp. apply elem_of_app. by left.
  - intros i m Hv Hm. rewrite deconfigure_phases. unfold bind at 1.
    change (unmount_all st) with (for_each ms unmount st).
    by rewrite (unmount_loop_refused _ _ _ _ Hv Hm).
Qed.

Lemma deconfigure_unmounts_in_reverse_witness :
  let reqs : list mount_request :=
    [("overlay", "/target/etc/apt", Some "lowerdir=/target/etc/apt", Some "overlay");
     ("/cdrom", "/target/cdrom", Some "bind", None);
     ("overlay", "/target/var/lib/apt/lists", None, Some "overlay")] in
  let st := (mount_calls reqs (demo_start false false always_ok)).2 in
  let st2 :=
    (mount_calls reqs
       (demo_start false false (refusing (umount_ev "/target/cdrom")))).2 in
  rev (_mounts (self st)) =
    ["/target/var/lib/apt/lists"; "/target/cdrom"; "/target/etc/apt"] ∧
  (∃ rest,
     events_since st (deconfigure st).2 =
       [umount_ev "/target/var/lib/apt/lists"; umount_ev "/target/cdrom";
        umount_ev "/target/etc/apt"] ++ rest ∧
     ∀ argv, EvRun argv ∉ rest) ∧
  (deconfigure st2).1 = Raise (CalledProcessError ["umount"; "/target/cdrom"]) ∧
  events_since st2 (deconfigure st2).2 =
    [umount_ev "/target/var/lib/apt/lists"; umount_ev "/target/cdrom"].
Proof.
  intros reqs st st2.
  destruct (deconfigure_unmounts_in_reverse st) as (Hledger & Hacc & _).
  destruct (deconfigure_unmounts_in_reverse st2) as (_ & _ & Href).
  split; [|split].
  - apply (Hledger reqs (demo_start false false always_ok));
      [reflexivity|vm_compute; reflexivity].
  - apply (Hacc eq_refl (deconfigure st).1 (deconfigure st).2).
    vm_compute. reflexivity.
  - rewrite (Href 1 "/target/cdrom" eq_refl eq_refl).
    split; [reflexivity | vm_compute; reflexivity].
Defined.

(** ** Teardown after an aborted [configure] *)

(** C2, as stated, fails: when [configure] aborts at the curtin
    [apt-config] step, nothing is recorded and [target/cdrom] has never been
    created; [deconfigure] all the same goes for [target/cdrom], a resource
    of a step that did not run, and raises on it. *)
Lemma C2_deconfigure_touches_unrecorded_dir :
  let st0 :=
    demo_start true false
      (refusing (EvCurtin ["apt-config"; "-t"; "/target"]
                   (Some "/var/log/installer/subiquity-curtin-apt.conf"))) in
  let st1 := (configure st0).2 in
  (configure st0).1 = Raise (CurtinError ["apt-config"; "-t"; "/target"]) ∧
  _mounts (self st1) = [] ∧ _tdirs (self st1) = [] ∧
  fs (world st1) !! "/target/cdrom" = None ∧
  (deconfigure st1).1 = Raise (FileNotFoundError "/target/cdrom") ∧
  events_since st1 (deconfigure st1).2 = [EvRmdir "/target/cdrom"].
Proof. vm_compute. by repeat split. Qed.

(** C2, amended: on a stager whose [configure] aborted, [deconfigure]
    unmounts the recorded mounts, latest first, and removes the recorded
    temp directories, in this order and stopping at the first operation that
    raises.  Beyond the ledgers it removes the media mountpoint directory
    [target/cdrom] unless in dry-run mode, whether or not [configure] got as
    far as creating it, and refreshes the package index when the network is
    present.  It attempts nothing else and leaves both ledgers as they
    were. *)
Theorem deconfigure_after_aborted_configure st0 e st r st' :
  configure st0 = (Raise e, st) →
  deconfigure st = (r, st') →
  events_since st st' `prefix_of` deconfigure_plan st ∧
  (r = Ok tt → events_since st st' = deconfigure_plan st) ∧
  self st' = self st.
Proof.
  intros _ (evs & Hs & Hp & Hok)%deconfigure_run.
  by rewrite (steps_events _ _ _ Hs), (steps_self _ _ _ Hs).
Qed.

Lemma deconfigure_after_aborted_configure_witness :
  let st0 :=
    demo_start false true
      (refusing (EvRun ["mount"; "-o"; "bind"; "/cdrom"; "/target/cdrom"])) in
  let st := (configure st0).2 in
  events_since st (deconfigure st).2 `prefix_of` deconfigure_plan st ∧
  ((deconfigure st).1 = Ok tt →
   events_since st (deconfigure st).2 = deconfigure_plan st) ∧
  self (deconfigure st).2 = self st.
Proof.
  apply (deconfigure_after_aborted_configure
           (demo_start false true
              (refusing (EvRun ["mount"; "-o"; "bind"; "/cdrom"; "/target/cdrom"])))
           (CalledProcessError ["mount"; "-o"; "bind"; "/cdrom"; "/target/cdrom"])).
  - vm_compute. reflexivity.
  - vm_compute. reflexivity.
Defined.

(** ** Releasing the temp directories *)

(** C3, as stated, fails: with two recorded temp directories, when the
    removal of the first is refused [deconfigure] raises at once and the
    second is neither attempted nor removed. *)
Lemma C3_release_stops_at_failure :
  let st0 := demo_start false false (refusing (EvRmtree "/tmp/tmpaaaaaaaa")) in
  let st1 := (configure st0).2 in
  (configure st0).1 = Ok tt ∧
  _tdirs (self st1) = ["/tmp/tmpaaaaaaaa"; "/tmp/tmpbbbbbbbb"] ∧
  (deconfigure st1).1 = Raise (OSError (EvRmtree "/tmp/tmpaaaaaaaa")) ∧
  events_since st1 (deconfigure st1).2 =
    [umount_ev "/target/var/lib/apt/lists"; umount_ev "/target/cdrom";
     umount_ev "/target/etc/apt"; EvRmtree "/tmp/tmpaaaaaaaa"] ∧
  fs (world (deconfigure st1).2) !! "/tmp/tmpbbbbbbbb" = Some Dir.
Proof. vm_compute. by repeat split. Qed.

(** C3, amended: the recorded temp directories are removed in the order of
    the ledger, and a failure to remove one propagates at once:
    [deconfigure] raises that error, the trace ends with the failed removal
    and none of the directories recorded after it is attempted. *)
Theorem release_stops_at_first_failure st st1 ds1 d ds2 st2 e st3 :
  _tdirs (self st) = ds1 ++ d :: ds2 →
  unmount_all st = (Ok tt, st1) →
  for_each ds1 shutil_rmtree st1 = (Ok tt, st2) →
  shutil_rmtree d st2 = (Raise e, st3) →
  deconfigure st = (Raise e, st3) ∧
  events_since st st3 =
    (umount_ev <$> rev (_mounts (self st))) ++ (EvRmtree <$> ds1) ++ [EvRmtree d].
Proof.
  intros Hds H1 H2 H3.
  pose proof H1 as (evs1 & Hs1 & _ & Hok1)%unmount_all_steps.
  rewrite (Hok1 eq_refl) in Hs1. clear Hok1 evs1.
  pose proof H2 as (evs2 & Hs2 & _ & Hok2)%(for_each_steps _ EvRmtree);
    [|intros; by eapply shutil_rmtree_steps].
  rewrite (Hok2 eq_refl) in Hs2. clear Hok2 evs2.
  pose proof H3 as Hs3%shutil_rmtree_steps.
  split.
  - rewrite deconfigure_phases. rewrite (bind_eq_Ok _ _ _ _ _ H1).
    apply bind_eq_Raise. unfold release_all, bind at 1, get_self.
    rewrite (steps_self _ _ _ Hs1), Hds, for_each_app.
    rewrite (bind_eq_Ok _ _ _ _ _ H2). simpl. by apply bind_eq_Raise.
  - apply steps_events.
    eapply steps_trans; [exact Hs1|]. by eapply steps_trans.
Qed.

Lemma release_stops_at_first_failure_witness :
  let st := (configure (demo_start false false
                          (refusing (EvRmtree "/tmp/tmpbbbbbbbb")))).2 in
  (deconfigure st).1 = Raise (OSError (EvRmtree "/tmp/tmpbbbbbbbb")) ∧
  events_since st (deconfigure st).2 =
    [umount_ev "/target/var/lib/apt/lists"; umount_ev "/target/cdrom";
     umount_ev "/target/etc/apt"; EvRmtree "/tmp/tmpaaaaaaaa";
     EvRmtree "/tmp/tmpbbbbbbbb"].
Proof.
  pose (st := (configure (demo_start false false
                            (refusing (EvRmtree "/tmp/tmpbbbbbbbb")))).2).
  pose (st1 := (unmount_all st).2).
  pose (st2 := (for_each ["/tmp/tmpaaaaaaaa"] shutil_rmtree st1).2).
  pose (st3 := (shutil_rmtree "/tmp/tmpbbbbbbbb" st2).2).
  destruct (release_stops_at_first_failure st st1
              ["/tmp/tmpaaaaaaaa"] "/tmp/tmpbbbbbbbb" [] st2
              (OSError (EvRmtree "/tmp/tmpbbbbbbbb")) st3) as [Hr He];
    [vm_compute; reflexivity..|].
  split.
  - fold st. by rewrite Hr.
  - fold st. rewrite Hr. exact He.
Defined.

(** ** The network query and dry-run mode *)

Lemma unwind_loops_env_blind : env_blind unwind_loops.
Proof.
  apply bind_env_blind; [apply unmount_all_env_blind|].
  intros _. apply release_all_env_blind.
Qed.

Lemma remove_media_dir_same_dry e' st r st1 :
  env_ok e' = env_ok (env (world st)) →
  dry_run e' = dry_run (env (world st)) →
  remove_media_dir st = (r, st1) →
  env (world st1) = env (world st) ∧
  remove_media_dir (with_env e' st) = (r, with_env e' st1).
Proof.
  intros Hok Hd. unfold remove_media_dir, bind, get_self, get_world. simpl.
  rewrite Hd. destruct (dry_run (env (world st))); simpl.
  - by intros [= <- <-].
  - by apply os_rmdir_env_blind.
Qed.

Lemma unwind_same_dry e' st r st1 :
  env_ok e' = env_ok (env (world st)) →
  dry_run e' = dry_run (env (world st)) →
  unwind st = (r, st1) →
  env (world st1) = env (world st) ∧ unwind (with_env e' st) = (r, with_env e' st1).
Proof.
  intros Hok Hd. unfold unwind, bind.
  destruct (unwind_loops st) as [[[]|e] s12] eqn:H12;
    destruct (unwind_loops_env_blind e' _ _ _ Hok H12) as [Henv ->].
  - rewrite <- Henv in Hok, Hd. intros H3.
    destruct (remove_media_dir_same_dry _ _ _ _ Hok Hd H3) as [Henv' ->].
    split; [congruence|done].
  - by intros [= <- <-].
Qed.

Lemma unwind_steps st r st' :
  unwind st = (r, st') →
  ∃ evs, steps evs st st' ∧
         (r = Ok tt →
          evs = (umount_ev <$> rev (_mounts (self st))) ++
                (EvRmtree <$> _tdirs (self st)) ++
                (if dry_run (env (world st)) then []
                 else [EvRmdir (tpath (self st) ["cdrom"])])).
Proof.
  unfold unwind, bind.
  destruct (unwind_loops st) as [[[]|e] s12] eqn:H12;
    apply unwind_loops_steps in H12 as (evs & Hs & _ & Hok).
  2:{ intros [= <- <-]. by exists evs. }
  rewrite (Hok eq_refl) in Hs. clear Hok evs.
  intros H3%remove_media_dir_steps.
  rewrite (steps_self _ _ _ Hs), (steps_env _ _ _ Hs) in H3.
  eexists. split; [by eapply steps_trans|]. intros _. by rewrite <- app_assoc.
Qed.

(** C9: whatever the network state was when [configure] ran, [deconfigure]
    asks for it anew.  Let the network state be [b] when [deconfigure] is
    called on the state [configure] left.  Then the final [apt-get update]
    is attempted if and only if [b] is true and the unwinding before the
    query did not raise.  And of two such runs that differ in [b] only, the
    unwinding being complete, the one with the network attempts exactly the
    operations of the other followed by the refresh. *)
Theorem deconfigure_requeries_network st0 r0 st1 :
  configure st0 = (r0, st1) →
  let at_net b := with_env (set_has_network b (env (world st1))) st1 in
  (∀ b r st', deconfigure (at_net b) = (r, st') →
     (refresh_ev (self st1) ∈ events_since (at_net b) st' ↔
      b = true ∧ ∃ st2, unwind (at_net b) = (Ok tt, st2))) ∧
  (∀ st2 r st' r' st'',
     unwind (at_net true) = (Ok tt, st2) →
     deconfigure (at_net true) = (r, st') →
     deconfigure (at_net false) = (r', st'') →
     events_since (at_net true) st' =
       events_since (at_net false) st'' ++ [refresh_ev (self st1)]).
Proof.
  intros _ at_net. split.
  - intros b r st' Hrun.
    destruct (deconfigure_shape _ _ _ Hrun)
      as [(e & -> & H12 & Hp)|(s12 & H12 & [(e & -> & H3 & Hev)|(s3 & H3 & H4 & Hev)])];
      simpl in *.
    + split.
      * intros Hin. destruct Hp as [k Hp]. exfalso.
        eapply (plan_head_no_refresh (self st1) _ _ true). simpl.
        rewrite app_nil_r, Hp. apply elem_of_app. left. exact Hin.
      * intros [_ [st2 Hu]]. unfold unwind in Hu.
        by rewrite (bind_eq_Raise _ _ _ _ _ H12) in Hu.
    + split.
      * rewrite Hev, <- app_assoc. intros Hin. exfalso.
        by eapply plan_head_no_refresh.
      * intros [_ [st2 Hu]]. unfold unwind in Hu.
        rewrite (bind_eq_Ok _ _ _ _ _ H12) in Hu. congruence.
    + rewrite Hev. split.
      * intros Hin. split.
        -- destruct b; [done|]. exfalso. rewrite app_nil_r, <- app_assoc in Hin.
           by eapply plan_head_no_refresh.
        -- exists s3. unfold unwind. by rewrite (bind_eq_Ok _ _ _ _ _ H12).
      * intros [-> _]. rewrite !elem_of_app. right. right.
        by apply list_elem_of_singleton.
  - intros st2 r st' r' st'' Hu HT HF.
    assert (unwind (at_net false) = (Ok tt, with_env (env (world (at_net false))) st2))
      as Hu' by (by apply (unwind_same_dry _ (at_net true))).
    pose proof Hu as (evs & Hs & Hok)%unwind_steps.
    pose proof Hu' as (evs' & Hs' & Hok')%unwind_steps.
    rewrite (Hok eq_refl) in Hs. rewrite (Hok' eq_refl) in Hs'. clear Hok Hok'.
    rewrite deconfigure_unwind, (bind_eq_Ok _ _ _ _ _ Hu) in HT.
    rewrite deconfigure_unwind, (bind_eq_Ok _ _ _ _ _ Hu') in HF.
    apply final_refresh_steps in HT, HF.
    rewrite (steps_env _ _ _ Hs), (steps_self _ _ _ Hs) in HT. simpl in HT, HF.
    rewrite (steps_events _ _ _ (steps_trans _ _ _ _ _ Hs HT)).
    rewrite (steps_events _ _ _ (steps_trans _ _ _ _ _ Hs' HF)).
    simpl. by rewrite app_nil_r.
Qed.

Lemma deconfigure_requeries_network_witness :
  let st1 := (configure (demo_start true false always_ok)).2 in
  let at_net b := with_env (set_has_network b (env (world st1))) st1 in
  (refresh_ev (self st1) ∉
     events_since (at_net false) (deconfigure (at_net false)).2) ∧
  events_since (at_net true) (deconfigure (at_net true)).2 =
    events_since (at_net false) (deconfigure (at_net false)).2 ++ [refresh_ev (self st1)].
Proof.
  intros st1 at_net.
  destruct (deconfigure_requeries_network
              (demo_start true false always_ok) (Ok tt) st1) as [Hiff Hcmp];
    [vm_compute; reflexivity|].
  split.
  - intros Hin.
    apply (Hiff false (deconfigure (at_net false)).1 (deconfigure (at_net false)).2)
      in Hin as [Hb _]; [discriminate|].
    vm_compute. reflexivity.
  - apply (Hcmp (unwind (at_net true)).2
             (deconfigure (at_net true)).1 _ (deconfigure (at_net false)).1);
      vm_compute; reflexivity.
Defined.

(** C10: dry-run mode changes one statement of [deconfigure], the removal
    of the media mountpoint directory.  Run from the same state in normal
    mode and in dry-run mode, the two loops attempt the same unmounts and
    removals with the same outcome and the same effect; dry-run mode never
    attempts an [rmdir]; and past the loops the dry run attempts the refresh
    under the network query alone, where the normal run attempts the [rmdir]
    first and then, unless the [rmdir] raised, the same refresh. *)
Theorem dry_run_skips_only_rmdir st :
  let sn := with_env (set_dry_run false (env (world st))) st in
  let sd := with_env (set_dry_run true (env (world st))) st in
  let loops_plan :=
    (umount_ev <$> rev (_mounts (self st))) ++ (EvRmtree <$> _tdirs (self st)) in
  let rm := EvRmdir (tpath (self st) ["cdrom"]) in
  let refresh := if has_network (env (world st)) then [refresh_ev (self st)] else [] in
  ∀ rn sn' rd sd',
    deconfigure sn = (rn, sn') → deconfigure sd = (rd, sd') →
    (∀ r12 s12, unwind_loops sn = (r12, s12) →
                unwind_loops sd = (r12, with_env (env (world sd)) s12)) ∧
    (∀ p, EvRmdir p ∉ events_since sd sd') ∧
    ((∃ e, unwind_loops sn = (Raise e, sn') ∧ rn = Raise e ∧ rd = Raise e ∧
           events_since sd sd' = events_since sn sn' ∧
           events_since sn sn' `prefix_of` loops_plan) ∨
     (events_since sd sd' = loops_plan ++ refresh ∧
      (events_since sn sn' = loops_plan ++ [rm] ++ refresh ∨
       (events_since sn sn' = loops_plan ++ [rm] ∧ ∃ e, rn = Raise e)))).
Proof.
  intros sn sd loops_plan rm refresh rn sn' rd sd' Hn Hd.
  assert (∀ r12 s12, unwind_loops sn = (r12, s12) →
            unwind_loops sd = (r12, with_env (env (world sd)) s12)) as Hblind.
  { intros r12 s12 H12. by apply (unwind_loops_env_blind _ sn). }
  split; [exact Hblind|].
  assert (∀ p l, l `prefix_of` loops_plan ++ refresh → EvRmdir p ∉ l) as Hnorm.
  { intros p l [k Hl] Hin.
    assert (EvRmdir p ∈ loops_plan ++ refresh) as Hin'
      by (rewrite Hl; apply elem_of_app; by left).
    unfold loops_plan, refresh in Hin'.
    rewrite !elem_of_app, !list_elem_of_fmap in Hin'.
    destruct Hin' as [[(? & ? & _)|(? & ? & _)]|Hin']; [done..|].
    destruct (has_network _);
      first [by apply elem_of_nil in Hin' | by apply list_elem_of_singleton in Hin']. }
  destruct (deconfigure_shape _ _ _ Hd)
    as [(e & -> & H12 & Hp)|(s12 & H12 & [(e & -> & H3 & Hev)|(s3 & H3 & H4 & Hev)])];
    simpl in *.
  - split; [intros p; apply Hnorm; by apply prefix_app_r|].
    destruct (deconfigure_shape _ _ _ Hn)
      as [(e' & -> & H12' & Hp')|(s12' & H12' & _)]; simpl in *.
    + pose proof (Hblind _ _ H12') as Hd12. rewrite H12 in Hd12.
      injection Hd12 as -> ->.
      left. exists e'. split; [done|]. split; [done|]. split; [done|].
      split; [reflexivity|exact Hp'].
    + apply Hblind in H12'. congruence.
  - apply unwind_loops_steps in H12 as (evs & Hs & _).
    rewrite remove_media_dir_dry in H3; [done|].
    by rewrite (steps_env _ _ _ Hs).
  - fold loops_plan refresh in Hev. split; [intros p; apply Hnorm; by rewrite Hev|].
    right. split; [done|].
    destruct (deconfigure_shape _ _ _ Hn)
      as [(e' & -> & H12' & _)|(s12' & _ & [(e' & -> & _ & Hev')|(s3' & _ & _ & Hev')])];
      simpl in *.
    + apply Hblind in H12'. congruence.
    + right. split; [exact Hev'|by exists e'].
    + by left.
Qed.

Lemma dry_run_skips_only_rmdir_witness :
  let st := (configure (demo_start true false always_ok)).2 in
  let sn := with_env (set_dry_run false (env (world st))) st in
  let sd := with_env (set_dry_run true (env (world st))) st in
  (∀ p, EvRmdir p ∉ events_since sd (deconfigure sd).2) ∧
  events_since sn (deconfigure sn).2 =
    [umount_ev "/target/cdrom"; umount_ev "/target/etc/apt";
     EvRmtree "/tmp/tmpaaaaaaaa"; EvRmdir "/target/cdrom"; refresh_ev (self st)] ∧
  events_since sd (deconfigure sd).2 =
    [umount_ev "/target/cdrom"; umount_ev "/target/etc/apt";
     EvRmtree "/tmp/tmpaaaaaaaa"; refresh_ev (self st)].
Proof.
  intros st sn sd.
  destruct (dry_run_skips_only_rmdir st
              (deconfigure sn).1 (deconfigure sn).2
              (deconfigure sd).1 (deconfigure sd).2) as (_ & Hno & _);
    [vm_compute; reflexivity..|].
  split; [exact Hno|]. split; vm_compute; reflexivity.
Defined.

(** * Staging *)

(** ** Successful operations, one by one *)

Lemma os_mkdir_Ok p st st' :
  os_mkdir p st = (Ok tt, st') →
  fs (world st) !! p = None ∧ st' = put_fs p Dir (log (EvMkdir p) st).
Proof.
  unfold os_mkdir, bind, attempt, get_world, modify_world, raise. run_cases.
Qed.

Lemma open_w_write_Ok p c st st' :
  open_w_write p c st = (Ok tt, st') → st' = put_fs p (File c) (log (EvOpenW p c) st).
Proof.
  unfold open_w_write, bind, attempt, get_world, modify_world, raise. run_cases.
Qed.

Lemma write_file_Ok p c st st' :
  write_file p c st = (Ok tt, st') → st' = put_fs p (File c) (log (EvWriteFile p c) st).
Proof.
  unfold write_file, bind, attempt, get_world, modify_world, raise. run_cases.
Qed.

Lemma os_unlink_Ok p st st' :
  os_unlink p st = (Ok tt, st') → st' = del_fs p (log (EvUnlink p) st).
Proof.
  unfold os_unlink, bind, attempt, get_world, modify_world, raise. run_cases.
Qed.

Lemma os_rename_Ok src dst st st' :
  os_rename src dst st = (Ok tt, st') →
  steps [EvRename src dst] st st' ∧
  ∀ c, fs (world st) !! src = Some (File c) →
       st' = put_fs dst (File c) (del_fs src (log (EvRename src dst) st)).
Proof.
  unfold os_rename, bind, attempt, get_world, modify_world, raise, steps.
  run_cases; (split; [done|]); intros; simplify_eq; done.
Qed.

Lemma pick_fresh_Some dir f cands p rest :
  pick_fresh dir f cands = Some (p, rest) →
  f !! p = None ∧ ∃ c, p = tmp_path dir c.
Proof.
  induction cands as [|c cs IH]; simpl; [done|].
  destruct (f !! path_join dir ["tmp" +:+ tmpchars_str c]) eqn:Hp; [apply IH|].
  intros [= <- <-]. split; [done|by exists c].
Qed.

Lemma tdir_Ok d st st' :
  tdir st = (Ok d, st') →
  fs (world st) !! d = None ∧ (∃ c, d = tmp_path (tempdir (env (world st))) c) ∧
  ∃ rest, st' = add_tdir d (drawn rest (put_fs d Dir (log EvMkdtemp st))).
Proof.
  unfold tdir, tempfile_mkdtemp, bind, attempt, get_world, modify_world,
    modify_self, raise, ret.
  destruct (env_ok _ _ EvMkdtemp); [|done]. simpl.
  destruct (pick_fresh _ _ _) as [[p rest]|] eqn:Hp; [|done].
  intros [= <- <-]. apply pick_fresh_Some in Hp as [Hnone Hc].
  split; [done|]. split; [done|]. by exists rest.
Qed.

Lemma mount_Ok device mountpoint options type st st' :
  mount device mountpoint options type st = (Ok tt, st') →
  st' = add_mount mountpoint
          (log (EvRun (["mount"] ++
                       (match options with Some o => ["-o"; o] | None => [] end ++
                        match type with Some t => ["-t"; t] | None => [] end) ++
                       [device; mountpoint])) st).
Proof.
  unfold mount, command_runner_run, bind, attempt, modify_self. run_cases.
Qed.

Lemma setup_overlay_Ok dir st st' :
  setup_overlay dir st = (Ok tt, st') →
  ∃ d rest,
    fs (world st) !! d = None ∧ (∃ c, d = tmp_path (tempdir (env (world st))) c) ∧
    st' = overlay_state dir d rest st.
Proof.
  unfold setup_overlay. intros (d & st1 & Hd & Hrun)%bind_Ok.
  apply tdir_Ok in Hd as (Hnone & Hc & rest & ->).
  apply bind_Ok in Hrun as ([] & st2 & Hmk & Hmount). simpl in Hmk.
  apply bind_Ok in Hmk as ([] & st3 & Hw & Hmk).
  apply bind_Ok in Hmk as ([] & st4 & Hu & Hmk). injection Hmk as ->.
  apply os_mkdir_Ok in Hw as [_ ->]. apply os_mkdir_Ok in Hu as [_ ->].
  apply mount_Ok in Hmount as ->.
  exists d, rest. split; [done|]. split; [done|]. reflexivity.
Qed.

Ltac norm_events :=
  unfold events_since in *; simpl in *; rewrite <- ?app_assoc in *; simpl in *;
  rewrite ?drop_app_length in *.

Lemma lookup_insert_Dir (f : gmap string node) p q :
  f !! q = Some Dir → <[p := Dir]> f !! q = Some Dir.
Proof. intros Hq. rewrite lookup_insert. by case_decide. Qed.

(** ** Staging an overlay *)

(** C8: a [setup_overlay] over [dir] that returns has drawn one new temp
    directory [d] and recorded it in the pool, has created [d/work] and
    [d/upper], and has then run one command, the overlay mount of [dir] with
    exactly the three options [lowerdir], [upperdir] and [workdir], which it
    has recorded in the mount ledger.  And in every run, returning or not,
    in which a command is issued at all, both directories were created
    before it. *)
Theorem setup_overlay_stages dir st :
  (∀ st', setup_overlay dir st = (Ok tt, st') →
     ∃ d, let w := d +:+ "/work" in
          let u := d +:+ "/upper" in
          fs (world st) !! d = None ∧
          _tdirs (self st') = _tdirs (self st) ++ [d] ∧
          _mounts (self st') = _mounts (self st) ++ [dir] ∧
          events_since st st' =
            [EvMkdtemp; EvMkdir w; EvMkdir u;
             EvRun ["mount"; "-o";
                    "lowerdir=" +:+ dir +:+ ",upperdir=" +:+ u +:+ ",workdir=" +:+ w;
                    "-t"; "overlay"; "overlay"; dir]] ∧
          fs (world st') !! d = Some Dir ∧
          fs (world st') !! w = Some Dir ∧
          fs (world st') !! u = Some Dir) ∧
  (∀ r st' argv, setup_overlay dir st = (r, st') →
     EvRun argv ∈ events_since st st' →
     ∃ d, let w := d +:+ "/work" in
          let u := d +:+ "/upper" in
          argv = ["mount"; "-o";
                  "lowerdir=" +:+ dir +:+ ",upperdir=" +:+ u +:+ ",workdir=" +:+ w;
                  "-t"; "overlay"; "overlay"; dir] ∧
          events_since st st' = [EvMkdtemp; EvMkdir w; EvMkdir u; EvRun argv] ∧
          fs (world st') !! w = Some Dir ∧
          fs (world st') !! u = Some Dir).
Proof.
  split.
  - intros st' (d & rest & Hnone & _ & ->)%setup_overlay_Ok. exists d. simpl.
    split; [done|]. split; [done|]. split; [done|].
    split; [by norm_events|].
    split; [|split].
    + do 2 apply lookup_insert_Dir. apply lookup_insert_eq.
    + apply lookup_insert_Dir. apply lookup_insert_eq.
    + apply lookup_insert_eq.
  - intros r st' argv.
    unfold setup_overlay, tdir, tempfile_mkdtemp, mount, command_runner_run,
      os_mkdir, bind, attempt, get_world, modify_world, modify_self, raise, ret.
    simpl. unfold bind, attempt, get_world, modify_world, raise, ret.
    intros Hrun Hin. revert Hrun Hin. run_cases; norm_events;
      repeat match goal with
      | H : _ ∈ _ :: _ |- _ => apply elem_of_cons in H as [H|H]; simplify_eq
      | H : _ ∈ [] |- _ => by apply elem_of_nil in H
      end.
    all: eexists; split; [reflexivity|]; split; [reflexivity|].
    all: split; [apply lookup_insert_Dir|]; apply lookup_insert_eq.
Qed.

Lemma setup_overlay_stages_witness :
  let st := demo_start true false always_ok in
  let st' := (setup_overlay "/target/etc/apt" st).2 in
  ∃ d, let w := d +:+ "/work" in
       let u := d +:+ "/upper" in
       fs (world st) !! d = None ∧
       _tdirs (self st') = _tdirs (self st) ++ [d] ∧
       _mounts (self st') = _mounts (self st) ++ ["/target/etc/apt"] ∧
       events_since st st' =
         [EvMkdtemp; EvMkdir w; EvMkdir u;
          EvRun ["mount"; "-o";
                 "lowerdir=" +:+ "/target/etc/apt" +:+ ",upperdir=" +:+ u +:+
                   ",workdir=" +:+ w;
                 "-t"; "overlay"; "overlay"; "/target/etc/apt"]] ∧
       fs (world st') !! d = Some Dir ∧
       fs (world st') !! w = Some Dir ∧
       fs (world st') !! u = Some Dir.
Proof.
  apply (proj1 (setup_overlay_stages "/target/etc/apt"
                  (demo_start true false always_ok))).
  vm_compute. reflexivity.
Defined.

(** ** Paths that cannot coincide *)

Lemma append_cons x (a b : string) : String x a +:+ b = String x (a +:+ b).
Proof. reflexivity. Qed.

Lemma append_assoc (a b c : string) : (a +:+ b) +:+ c = a +:+ (b +:+ c).
Proof.
  induction a as [|x a IH]; [done|]. by rewrite !append_cons, IH.
Qed.

Lemma length_append (a b : string) :
  String.length (a +:+ b) = String.length a + String.length b.
Proof.
  induction a as [|x a IH]; [done|]. rewrite append_cons. simpl. by rewrite IH.
Qed.

(** Two strings that are equal have the same last [n] characters. *)
Lemma append_suffix_eq (a b s t : string) :
  String.length s = String.length t → a +:+ s = b +:+ t → s = t.
Proof.
  intros Hlen Heq.
  assert (String.length a = String.length b) as Hab.
  { apply (f_equal String.length) in Heq. rewrite !length_append in Heq. lia. }
  revert b Hab Heq. induction a as [|x a IH]; intros [|y b]; simpl; try done.
  rewrite !append_cons. intros [= Hab] [= _ Heq]. by apply (IH b).
Qed.

Lemma join1_relative (t x : string) :
  starts_with_sep x = false → join1 t x = join_prefix t +:+ x.
Proof.
  intros Hx. unfold join1, join_prefix. rewrite Hx.
  destruct (String.eqb t "" || ends_with_sep t); [done|].
  by rewrite append_assoc.
Qed.

Lemma tpath_relative a (x : string) :
  starts_with_sep x = false → tpath a [x] = join_prefix (target a) +:+ x.
Proof. apply join1_relative. Qed.

(** Two relative components joined to the same target differ when they do. *)
Lemma tpath_neq a (x y : string) :
  starts_with_sep x = false → starts_with_sep y = false → x ≠ y →
  tpath a [x] ≠ tpath a [y].
Proof.
  intros Hx Hy Hne. rewrite !tpath_relative by done.
  intros Heq. by apply String.app_inj in Heq.
Qed.

(** A [mkdtemp] name ends in [p] and eight more characters. *)
Lemma tmp_path_suffix dir c :
  ∃ pre c1 c2 c3 c4 c5 c6 c7 c8,
    tmp_path dir c =
    pre +:+ String "p" (String c1 (String c2 (String c3 (String c4
              (String c5 (String c6 (String c7 (String c8 "")))))))).
Proof.
  destruct c as [c1 c2 c3 c4 c5 c6 c7 c8].
  exists (join_prefix dir +:+ "tm"), c1, c2, c3, c4, c5, c6, c7, c8.
  unfold tmp_path, path_join. simpl. rewrite join1_relative by done.
  by rewrite append_assoc.
Qed.

Lemma neq_by_last (p q p' q' : string) (x y : ascii) :
  p = p' +:+ String x "" → q = q' +:+ String y "" → x ≠ y → p ≠ q.
Proof.
  intros -> -> Hxy Heq. apply append_suffix_eq in Heq; [|done]. congruence.
Qed.

Lemma tpath_last a (x : string) (c : ascii) :
  starts_with_sep (x +:+ String c "") = false →
  tpath a [x +:+ String c ""] = (join_prefix (target a) +:+ x) +:+ String c "".
Proof. intros Hx. rewrite tpath_relative by done. by rewrite append_assoc. Qed.

Ltac invert_run :=
  repeat match goal with
  | x : unit |- _ => destruct x
  | H : bind _ _ _ = (Ok _, _) |- _ => apply bind_Ok in H as (? & ? & ? & H)
  | H : get_self _ = (Ok _, _) |- _ => injection H as <- <-
  | H : get_world _ = (Ok _, _) |- _ => injection H as <- <-
  | H : ret _ _ = (Ok _, _) |- _ => first [injection H as <- <- | injection H as <-]
  | H : lsb_release_codename _ = (Ok _, _) |- _ => injection H as <- <-
  | H : os_path_exists _ _ = (Ok _, _) |- _ => injection H as <- <-
  | H : open_w_write _ _ _ = (Ok _, _) |- _ => apply open_w_write_Ok in H as ->
  | H : write_file _ _ _ = (Ok _, _) |- _ => apply write_file_Ok in H as ->
  | H : note_data_for_apport _ _ _ = (Ok _, _) |- _ => apply attempt_Ok in H as [_ ->]
  | H : run_curtin_command _ _ _ = (Ok _, _) |- _ => apply attempt_Ok in H as [_ ->]
  | H : mount _ _ _ _ _ = (Ok _, _) |- _ => apply mount_Ok in H as ->
  | H : os_unlink _ _ = (Ok _, _) |- _ => apply os_unlink_Ok in H as ->
  end.

(** ** A complete [configure] *)

(** C6: with the network present and the codename [focal], a [configure]
    that returns leaves in [target/etc/apt/sources.list] the one line
    [deb [check-date=no] file:///cdrom focal main restricted]; it has moved
    the source list that was there to [sources.list.d/original.list], where
    its content is kept; and on a fresh stager it has recorded two mounts,
    the overlay over [target/etc/apt] and then the bind mount of the media,
    issued in this order among the operations of the run. *)
Theorem configure_online_focal st st' :
  has_network (env (world st)) = true →
  codename (env (world st)) = "focal" →
  _mounts (self st) = [] →
  configure st = (Ok tt, st') →
  let a := self st in
  let src := tpath a ["etc/apt/sources.list"] in
  let dst := tpath a ["etc/apt/sources.list.d/original.list"] in
  let line := "deb [check-date=no] file:///cdrom focal main restricted" +:+ nl in
  let conf :=
    path_join (root (env (world st))) ["var/log/installer/subiquity-curtin-apt.conf"] in
  fs (world st') !! src = Some (File line) ∧
  (∀ c, fs (world st) !! src = Some (File c) →
        fs (world st') !! dst = Some (File c)) ∧
  _mounts (self st') = [tpath a ["etc/apt"]; tpath a ["cdrom"]] ∧
  ∃ d text,
    events_since st st' =
      [EvOpenW conf text; EvApport "CurtinAptConfig" conf;
       EvCurtin ["apt-config"; "-t"; tpath a []] (Some conf);
       EvMkdtemp; EvMkdir (d +:+ "/work"); EvMkdir (d +:+ "/upper");
       overlay_mount_ev (tpath a ["etc/apt"]) d;
       EvMkdir (tpath a ["cdrom"]);
       EvRun ["mount"; "-o"; "bind"; "/cdrom"; tpath a ["cdrom"]];
       EvRename src dst; EvWriteFile src line; refresh_ev a].
Proof.
  intros Hnet Hcode Hfresh Hrun a src dst line conf.
  unfold configure in Hrun. invert_run.
  match goal with H : setup_overlay _ _ = _ |- _ =>
    apply setup_overlay_Ok in H as (d & rest & Hd & _ & ->) end.
  match goal with H : os_mkdir _ _ = _ |- _ => apply os_mkdir_Ok in H as [_ ->] end.
  simpl in *. rewrite Hnet in *.
  match goal with H : os_rename _ _ _ = _ |- _ =>
    apply os_rename_Ok in H as [Hsteps Hfile] end.
  destruct Hsteps as (Hself & Henv & Htrace). simpl in Hself, Henv, Htrace, Hfile.
  simpl. rewrite Henv, Hcode.
  fold a src dst conf in Hself, Htrace, Hfile, Hd |- *. fold line.
  split; [apply lookup_insert_eq|]. split; [|split].
  - intros c Hc.
    assert (src ≠ conf) as Hconf.
    { apply (neq_by_last _ _ (join_prefix (target a) +:+ "etc/apt/sources.lis")
               (join_prefix (root (env (world st))) +:+
                  "var/log/installer/subiquity-curtin-apt.con") "t" "f");
        [by apply (tpath_last a "etc/apt/sources.lis")| |done].
      unfold conf, path_join. simpl. rewrite join1_relative by done.
      by rewrite append_assoc. }
    assert (src ≠ d) as Hsd.
    { intros <-. rewrite lookup_insert_ne in Hd by done. congruence. }
    rewrite (Hfile c); simpl.
    + rewrite lookup_insert_ne by (apply tpath_neq; done).
      apply lookup_insert_eq.
    + assert (d +:+ "/work" ≠ src) as Hw.
      { apply not_eq_sym.
        apply (neq_by_last _ _ (join_prefix (target a) +:+ "etc/apt/sources.lis")
                 (d +:+ "/wor") "t" "k");
          [by apply (tpath_last a "etc/apt/sources.lis")|by rewrite append_assoc|done]. }
      assert (d +:+ "/upper" ≠ src) as Hu.
      { apply not_eq_sym.
        apply (neq_by_last _ _ (join_prefix (target a) +:+ "etc/apt/sources.lis")
                 (d +:+ "/uppe") "t" "r");
          [by apply (tpath_last a "etc/apt/sources.lis")|by rewrite append_assoc|done]. }
      assert (tpath a ["cdrom"] ≠ src) as Hcd by (apply tpath_neq; done).
      by rewrite !lookup_insert_ne by done.
  - rewrite Hself. simpl. unfold a. by rewrite Hfresh.
  - exists d. eexists. apply trace_events. simpl.
    rewrite Htrace. rewrite <- !app_assoc. reflexivity.
Qed.

Lemma configure_online_focal_witness :
  let st := demo_start true false always_ok in
  let st' := (configure st).2 in
  fs (world st') !! "/target/etc/apt/sources.list" =
    Some (File ("deb [check-date=no] file:///cdrom focal main restricted" +:+ nl)) ∧
  fs (world st') !! "/target/etc/apt/sources.list.d/original.list" =
    Some (File ("deb http://archive.ubuntu.com/ubuntu focal main restricted" +:+ nl)) ∧
  _mounts (self st') = ["/target/etc/apt"; "/target/cdrom"].
Proof.
  intros st st'.
  destruct (configure_online_focal st st') as (Hsrc & Hdst & Hm & _);
    [reflexivity|reflexivity|reflexivity|vm_compute; reflexivity|].
  split; [exact Hsrc|]. split; [|exact Hm].
  apply Hdst. vm_compute. reflexivity.
Defined.

(** C7: with the network absent, a [configure] that returns has recorded,
    on a fresh stager, three mounts: the overlay over [target/etc/apt], the
    bind mount of the media and the overlay over [target/var/lib/apt/lists],
    issued in this order among the operations of the run; and the proxy
    fragment [etc/apt/apt.conf.d/90curtin-aptproxy] is not in the tree
    afterwards, whether it was there before or not. *)
Theorem configure_offline st st' :
  has_network (env (world st)) = false →
  _mounts (self st) = [] →
  configure st = (Ok tt, st') →
  let a := self st in
  let proxy := tpath a ["etc/apt/apt.conf.d/90curtin-aptproxy"] in
  let src := tpath a ["etc/apt/sources.list"] in
  let line := "deb [check-date=no] file:///cdrom " +:+ codename (env (world st)) +:+
              " main restricted" +:+ nl in
  let conf :=
    path_join (root (env (world st))) ["var/log/installer/subiquity-curtin-apt.conf"] in
  fs (world st') !! proxy = None ∧
  _mounts (self st') =
    [tpath a ["etc/apt"]; tpath a ["cdrom"]; tpath a ["var/lib/apt/lists"]] ∧
  ∃ d1 d2 text middle,
    events_since st st' =
      [EvOpenW conf text; EvApport "CurtinAptConfig" conf;
       EvCurtin ["apt-config"; "-t"; tpath a []] (Some conf);
       EvMkdtemp; EvMkdir (d1 +:+ "/work"); EvMkdir (d1 +:+ "/upper");
       overlay_mount_ev (tpath a ["etc/apt"]) d1;
       EvMkdir (tpath a ["cdrom"]);
       EvRun ["mount"; "-o"; "bind"; "/cdrom"; tpath a ["cdrom"]]] ++
      middle ++
      [EvMkdtemp; EvMkdir (d2 +:+ "/work"); EvMkdir (d2 +:+ "/upper");
       overlay_mount_ev (tpath a ["var/lib/apt/lists"]) d2;
       EvWriteFile src line; refresh_ev a] ∧
    (middle = [] ∨ middle = [EvUnlink proxy]).
Proof.
  intros Hnet Hfresh Hrun a proxy src line conf.
  unfold configure in Hrun. invert_run.
  match goal with H : setup_overlay _ _ = _ |- _ =>
    apply setup_overlay_Ok in H as (d1 & rest1 & _ & _ & ->) end.
  match goal with H : os_mkdir _ _ = _ |- _ => apply os_mkdir_Ok in H as [_ ->] end.
  simpl in *. rewrite Hnet in *. invert_run.
  match goal with H : setup_overlay _ _ = _ |- _ =>
    apply setup_overlay_Ok in H as (d2 & rest2 & _ & (c2 & Hc2) & ->) end.
  fold a proxy src.
  assert (proxy ≠ src) as Hps by (apply tpath_neq; done).
  assert (proxy ≠ d2 +:+ "/work") as Hpw.
  { apply (neq_by_last _ _
             (join_prefix (target a) +:+ "etc/apt/apt.conf.d/90curtin-aptprox")
             (d2 +:+ "/wor") "y" "k");
      [by apply (tpath_last a "etc/apt/apt.conf.d/90curtin-aptprox")
      |by rewrite append_assoc|done]. }
  assert (proxy ≠ d2 +:+ "/upper") as Hpu.
  { apply (neq_by_last _ _
             (join_prefix (target a) +:+ "etc/apt/apt.conf.d/90curtin-aptprox")
             (d2 +:+ "/uppe") "y" "r");
      [by apply (tpath_last a "etc/apt/apt.conf.d/90curtin-aptprox")
      |by rewrite append_assoc|done]. }
  assert (proxy ≠ d2) as Hpd.
  { match type of Hc2 with _ = tmp_path ?dir _ =>
      destruct (tmp_path_suffix dir c2)
        as (pre & c1' & c2' & c3' & c4' & c5' & c6' & c7' & c8' & Hsuf) end.
    rewrite Hc2, Hsuf.
    unfold proxy. rewrite tpath_relative by done.
    change "etc/apt/apt.conf.d/90curtin-aptproxy"
      with ("etc/apt/apt.conf.d/90curtin" +:+ "-aptproxy").
    rewrite <- append_assoc. intros Heq.
    apply append_suffix_eq in Heq; [discriminate|done]. }
  clear Hc2.
  match goal with
  | H : (if ?b then _ else _) _ = _ |- _ => destruct b eqn:Hex; invert_run
  end; simpl.
  - split.
    { rewrite !lookup_insert_ne by done. apply lookup_delete_eq. }
    split; [by rewrite Hfresh|].
    exists d1, d2. eexists. exists [EvUnlink proxy].
    split; [|by right].
    apply trace_events. simpl. rewrite <- !app_assoc. reflexivity.
  - split.
    { rewrite !lookup_insert_ne by done.
      apply bool_decide_eq_false in Hex. simpl in Hex.
      by apply eq_None_not_Some. }
    split; [by rewrite Hfresh|].
    exists d1, d2. eexists. exists [].
    split; [|by left].
    apply trace_events. simpl. rewrite <- !app_assoc. reflexivity.
Qed.

Lemma configure_offline_witness :
  let st := demo_start false false always_ok in
  let st' := (configure st).2 in
  fs (world st) !! "/target/etc/apt/apt.conf.d/90curtin-aptproxy" =
    Some (File ("Acquire::http::Proxy http://squid.internal:3128;" +:+ nl)) ∧
  fs (world st') !! "/target/etc/apt/apt.conf.d/90curtin-aptproxy" = None ∧
  _mounts (self st') =
    ["/target/etc/apt"; "/target/cdrom"; "/target/var/lib/apt/lists"].
Proof.
  intros st st'. split; [vm_compute; reflexivity|].
  destruct (configure_offline st st') as (Hproxy & Hm & _);
    [reflexivity|reflexivity|vm_compute; reflexivity|].
  split; [exact Hproxy|exact Hm].
Defined.

(** ** Where a failing [configure] can have failed *)

Lemma bind_Raise {A B} (m : M A) (f : A → M B) st e st2 :
  bind m f st = (Raise e, st2) →
  m st = (Raise e, st2) ∨ ∃ a st1, m st = (Ok a, st1) ∧ f a st1 = (Raise e, st2).
Proof.
  unfold bind. destruct (m st) as [[a|e'] st1]; [eauto|]. intros [= -> ->]. by left.
Qed.

Lemma attempt_Raise e st x st' :
  attempt e st = (Raise x, st') → x = fault_exn e ∧ st' = log e st.
Proof. unfold attempt. case_match; naive_solver. Qed.

Lemma open_w_write_no_command p c st argv st' :
  open_w_write p c st ≠ (Raise (CalledProcessError argv), st').
Proof.
  unfold open_w_write, bind, attempt, get_world, modify_world, raise. run_cases.
Qed.

Lemma write_file_no_command p c st argv st' :
  write_file p c st ≠ (Raise (CalledProcessError argv), st').
Proof.
  unfold write_file, bind, attempt, get_world, modify_world, raise. run_cases.
Qed.

Lemma os_mkdir_no_command p st argv st' :
  os_mkdir p st ≠ (Raise (CalledProcessError argv), st').
Proof.
  unfold os_mkdir, bind, attempt, get_world, modify_world, raise. run_cases.
Qed.

Lemma os_unlink_no_command p st argv st' :
  os_unlink p st ≠ (Raise (CalledProcessError argv), st').
Proof.
  unfold os_unlink, bind, attempt, get_world, modify_world, raise. run_cases.
Qed.

Lemma os_rename_no_command src dst st argv st' :
  os_rename src dst st ≠ (Raise (CalledProcessError argv), st').
Proof.
  unfold os_rename, bind, attempt, get_world, modify_world, raise. run_cases.
Qed.

Lemma tdir_no_command st argv st' :
  tdir st ≠ (Raise (CalledProcessError argv), st').
Proof.
  unfold tdir, tempfile_mkdtemp, bind, attempt, get_world, modify_world,
    modify_self, raise, ret.
  run_cases.
Qed.

Lemma mount_Raise device mountpoint options type st e st' :
  mount device mountpoint options type st = (Raise e, st') →
  let argv := ["mount"] ++
              (match options with Some o => ["-o"; o] | None => [] end ++
               match type with Some t => ["-t"; t] | None => [] end) ++
              [device; mountpoint] in
  e = CalledProcessError argv ∧ st' = log (EvRun argv) st.
Proof.
  unfold mount, command_runner_run, bind, attempt, modify_self. run_cases.
Qed.

(** The only command error a [setup_overlay] can raise is that of its own
    mount, which has seven words. *)
Lemma setup_overlay_command dir st argv st' :
  setup_overlay dir st = (Raise (CalledProcessError argv), st') → length argv = 7.
Proof.
  unfold setup_overlay. intros [H|(d & st1 & _ & H)]%bind_Raise.
  { by apply tdir_no_command in H. }
  apply bind_Raise in H as [H|([] & st2 & _ & H)].
  - simpl in H. apply bind_Raise in H as [H|([] & st3 & _ & H)].
    { by apply os_mkdir_no_command in H. }
    apply bind_Raise in H as [H|([] & st4 & _ & H)]; [|done].
    by apply os_mkdir_no_command in H.
  - by apply mount_Raise in H as [[= ->] _].
Qed.

Lemma remove_media_dir_Ok st st' :
  dry_run (env (world st)) = false →
  remove_media_dir st = (Ok tt, st') →
  fs (world st') !! tpath (self st) ["cdrom"] = None.
Proof.
  intros Hd. unfold remove_media_dir, bind, get_self, get_world. rewrite Hd. simpl.
  unfold os_rmdir, bind, attempt, get_world, modify_world, raise.
  run_cases. apply lookup_delete_eq.
Qed.

Lemma final_refresh_fs st r st' :
  final_refresh st = (r, st') → fs (world st') = fs (world st).
Proof.
  unfold final_refresh, bind, get_self, get_world, run_curtin_command, attempt, ret.
  run_cases.
Qed.

Ltac no_such_raise H :=
  first
    [ by apply open_w_write_no_command in H
    | by apply write_file_no_command in H
    | by apply os_mkdir_no_command in H
    | by apply os_unlink_no_command in H
    | by apply os_rename_no_command in H
    | by apply setup_overlay_command in H
    | by apply attempt_Raise in H as [? _]
    | by unfold get_self, get_world, ret, lsb_release_codename, os_path_exists, bind in H ].

(** ** A [configure] that fails at the media mount *)

(** C4, as stated, fails: when the bind mount of [/cdrom] fails,
    [configure] has already created [target/cdrom], and the [deconfigure]
    that follows removes it. *)
Lemma C4_media_dir_created_and_removed :
  let st0 :=
    demo_start true false
      (refusing (EvRun ["mount"; "-o"; "bind"; "/cdrom"; "/target/cdrom"])) in
  let st1 := (configure st0).2 in
  (configure st0).1 =
    Raise (CalledProcessError ["mount"; "-o"; "bind"; "/cdrom"; "/target/cdrom"]) ∧
  fs (world st0) !! "/target/cdrom" = None ∧
  fs (world st1) !! "/target/cdrom" = Some Dir ∧
  (deconfigure st1).1 = Ok tt ∧
  events_since st1 (deconfigure st1).2 =
    [umount_ev "/target/etc/apt"; EvRmtree "/tmp/tmpaaaaaaaa";
     EvRmdir "/target/cdrom"; refresh_ev (self st1)] ∧
  fs (world (deconfigure st1).2) !! "/target/cdrom" = None.
Proof. vm_compute. by repeat split. Qed.

(** C4, amended: when a fresh stager's [configure] fails at the bind mount
    of [/cdrom], the ledgers hold one mount, the overlay over
    [target/etc/apt], and the one temp directory made for it, and the media
    mountpoint directory [target/cdrom] exists: [configure] created it just
    before the mount.  The [deconfigure] that follows unmounts that one
    mount, removes that one temp directory, then removes [target/cdrom]
    unless in dry-run mode, then refreshes the index if the network is
    present, stopping at the first of these that raises. *)
Theorem deconfigure_after_failed_media_mount st0 st :
  _mounts (self st0) = [] → _tdirs (self st0) = [] →
  configure st0 =
    (Raise (CalledProcessError
              ["mount"; "-o"; "bind"; "/cdrom"; tpath (self st0) ["cdrom"]]), st) →
  let a := self st0 in
  let cdrom := tpath a ["cdrom"] in
  ∃ d,
    _mounts (self st) = [tpath a ["etc/apt"]] ∧ _tdirs (self st) = [d] ∧
    fs (world st) !! cdrom = Some Dir ∧
    EvMkdir cdrom ∈ events_since st0 st ∧
    ∀ r st', deconfigure st = (r, st') →
      let plan :=
        [umount_ev (tpath a ["etc/apt"]); EvRmtree d] ++
        (if dry_run (env (world st0)) then [] else [EvRmdir cdrom]) ++
        (if has_network (env (world st0)) then [refresh_ev a] else []) in
      events_since st st' `prefix_of` plan ∧
      (r = Ok tt →
       events_since st st' = plan ∧
       (dry_run (env (world st0)) = false → fs (world st') !! cdrom = None)).
Proof.
  intros Hm Ht Hrun a cdrom. unfold configure in Hrun.
  repeat match type of Hrun with
  | bind (mount _ _ _ _) _ _ = _ => fail 1
  | bind _ _ _ = _ =>
      apply bind_Raise in Hrun as [Hrun|(? & ? & ? & Hrun)]; [no_such_raise Hrun|]
  end.
  invert_run.
  match goal with H : setup_overlay _ _ = _ |- _ =>
    apply setup_overlay_Ok in H as (d & rest & _ & _ & ->) end.
  match goal with H : os_mkdir _ _ = _ |- _ => apply os_mkdir_Ok in H as [_ ->] end.
  apply bind_Raise in Hrun as [Hrun|(? & ? & _ & Hrun)].
  - apply mount_Raise in Hrun as [_ ->]. exists d. simpl.
    rewrite Hm, Ht. split; [done|]. split; [done|].
    split; [apply lookup_insert_eq|]. split.
    { norm_events. rewrite !elem_of_cons. tauto. }
    intros r st' Hdec.
    pose proof Hdec as (evs & Hs & Hp & Hok)%deconfigure_run.
    rewrite (steps_events _ _ _ Hs).
    unfold deconfigure_plan in Hp, Hok. simpl in Hp, Hok. rewrite Hm, Ht in Hp, Hok.
    split; [exact Hp|]. intros ->. split; [by apply Hok|].
    intros Hdry.
    destruct (deconfigure_shape _ _ _ Hdec)
      as [(e & ? & _)|(s12 & H12 & [(e & ? & _)|(s3 & H3 & H4 & _)])]; [done..|].
    apply unwind_loops_steps in H12 as (evs' & Hs' & _).
    rewrite (final_refresh_fs _ _ _ H4).
    pose proof (remove_media_dir_Ok s12 s3) as Hgone.
    rewrite (steps_env _ _ _ Hs'), (steps_self _ _ _ Hs') in Hgone.
    by apply Hgone.
  - exfalso.
    repeat match type of Hrun with
    | bind _ _ _ = _ =>
        apply bind_Raise in Hrun as [Hrun|(? & ? & ? & Hrun)]; [try no_such_raise Hrun|]
    end.
    + destruct (has_network _); [no_such_raise Hrun|].
      repeat match type of Hrun with
      | bind _ _ _ = _ =>
          apply bind_Raise in Hrun as [Hrun|(? & ? & ? & Hrun)]; [try no_such_raise Hrun|]
      end.
      * match type of Hrun with (if ?b then _ else _) _ = _ => destruct b end;
          no_such_raise Hrun.
      * no_such_raise Hrun.
    + unfold run_curtin_command in Hrun. no_such_raise Hrun.
Qed.

Lemma deconfigure_after_failed_media_mount_witness :
  let st0 :=
    demo_start false false
      (refusing (EvRun ["mount"; "-o"; "bind"; "/cdrom"; "/target/cdrom"])) in
  let st := (configure st0).2 in
  ∃ d,
    _mounts (self st) = ["/target/etc/apt"] ∧ _tdirs (self st) = [d] ∧
    fs (world st) !! "/target/cdrom" = Some Dir ∧
    events_since st (deconfigure st).2 =
      [umount_ev "/target/etc/apt"; EvRmtree d; EvRmdir "/target/cdrom"] ∧
    fs (world (deconfigure st).2) !! "/target/cdrom" = None.
Proof.
  intros st0 st.
  destruct (deconfigure_after_failed_media_mount st0 st)
    as (d & Hm & Ht & Hfs & _ & Hdec);
    [reflexivity|reflexivity|vm_compute; reflexivity|].
  exists d. split; [exact Hm|]. split; [exact Ht|]. split; [exact Hfs|].
  destruct (Hdec (deconfigure st).1 (deconfigure st).2) as [_ Hok];
    [vm_compute; reflexivity|].
  destruct Hok as [Hev Hgone]; [vm_compute; reflexivity|].
  split; [exact Hev|]. by apply Hgone.
Defined.

(** * Further properties of the teardown *)

(** ** What [deconfigure] does to the file tree *)

Lemma attempt_fs e st r st' :
  attempt e st = (r, st') → fs (world st') = fs (world st).
Proof. unfold attempt. by case_match; intros [= <- <-]. Qed.

Lemma shutil_rmtree_shrinks d st r st' :
  shutil_rmtree d st = (r, st') → fs (world st') ⊆ fs (world st).
Proof.
  unfold shutil_rmtree, bind, attempt, get_world, modify_world, raise.
  run_cases. apply map_filter_subseteq.
Qed.

Lemma shutil_rmtree_gone d st st' p :
  shutil_rmtree d st = (Ok tt, st') → is_under d p = true →
  fs (world st') !! p = None.
Proof.
  unfold shutil_rmtree, bind, attempt, get_world, modify_world, raise.
  run_cases. apply map_lookup_filter_None. right. intros n _. simpl. congruence.
Qed.

Lemma shutil_rmtree_missing d st st' :
  fs (world st) !! d = None → shutil_rmtree d st ≠ (Ok tt, st').
Proof.
  unfold shutil_rmtree, bind, attempt, get_world, modify_world, raise.
  run_cases.
Qed.

Lemma os_rmdir_shrinks d st r st' :
  os_rmdir d st = (r, st') → fs (world st') ⊆ fs (world st).
Proof.
  unfold os_rmdir, bind, attempt, get_world, modify_world, raise.
  run_cases. apply delete_subseteq.
Qed.

Lemma os_rmdir_missing d st st' :
  fs (world st) !! d = None → os_rmdir d st ≠ (Ok tt, st').
Proof.
  unfold os_rmdir, bind, attempt, get_world, modify_world, raise.
  run_cases.
Qed.

Lemma for_each_shrinks {A} (body : A → M unit) l :
  (∀ x st r st', body x st = (r, st') → fs (world st') ⊆ fs (world st)) →
  ∀ st r st', for_each l body st = (r, st') → fs (world st') ⊆ fs (world st).
Proof.
  intros Hbody. induction l as [|x l IH]; intros st r st'; simpl.
  - by intros [= <- <-].
  - unfold bind. destruct (body x st) as [[[]|e] st1] eqn:Hx.
    + intros Hrun. etrans; [by eapply IH|by eapply Hbody].
    + intros [= <- <-]. by eapply Hbody.
Qed.

Lemma unmount_all_fs st r st' :
  unmount_all st = (r, st') → fs (world st') = fs (world st).
Proof.
  unfold unmount_all, bind, get_self.
  generalize (rev (_mounts (self st))). intros ms. revert st.
  induction ms as [|m ms IH]; intros st; simpl.
  - by intros [= <- <-].
  - unfold bind. destruct (unmount m st) as [[[]|e] st1] eqn:Hm;
      apply attempt_fs in Hm.
    + intros Hrun. by rewrite (IH _ Hrun).
    + by intros [= <- <-].
Qed.

Lemma release_all_shrinks st r st' :
  release_all st = (r, st') → fs (world st') ⊆ fs (world st).
Proof.
  unfold release_all, bind, get_self. apply for_each_shrinks.
  apply shutil_rmtree_shrinks.
Qed.

Lemma remove_media_dir_shrinks st r st' :
  remove_media_dir st = (r, st') → fs (world st') ⊆ fs (world st).
Proof.
  unfold remove_media_dir, bind, get_self, get_world.
  destruct (negb _); [apply os_rmdir_shrinks|by intros [= <- <-]].
Qed.

Lemma unwind_loops_shrinks st r st' :
  unwind_loops st = (r, st') → fs (world st') ⊆ fs (world st).
Proof.
  unfold unwind_loops, bind.
  destruct (unmount_all st) as [[[]|e] st1] eqn:H1; apply unmount_all_fs in H1.
  - intros H2%release_all_shrinks. by rewrite <- H1.
  - intros [= <- <-]. by rewrite H1.
Qed.

(** [deconfigure] creates nothing and changes no file: whatever is in the
    tree after it, returning or not, was there before, unchanged. *)
Theorem deconfigure_only_removes st r st' :
  deconfigure st = (r, st') → fs (world st') ⊆ fs (world st).
Proof.
  rewrite deconfigure_unwind. unfold unwind, bind.
  destruct (unwind_loops st) as [[[]|e1] s12] eqn:H12;
    apply unwind_loops_shrinks in H12; [|by intros [= <- <-]].
  destruct (remove_media_dir s12) as [[[]|e3] s3] eqn:H3;
    apply remove_media_dir_shrinks in H3.
  - intros H4%final_refresh_fs. rewrite H4. by etrans.
  - intros [= <- <-]. by etrans.
Qed.

Lemma deconfigure_only_removes_witness :
  let st := (configure (demo_start false false always_ok)).2 in
  fs (world (deconfigure st).2) ⊆ fs (world st).
Proof.
  intros st. apply (deconfigure_only_removes st (deconfigure st).1).
  vm_compute. reflexivity.
Defined.

Lemma release_loop_gone ds st st' :
  for_each ds shutil_rmtree st = (Ok tt, st') →
  ∀ d p, d ∈ ds → is_under d p = true → fs (world st') !! p = None.
Proof.
  revert st. induction ds as [|x ds IH]; intros st; simpl.
  - intros _ d p Hd. by apply elem_of_nil in Hd.
  - intros ([] & st1 & Hx & Hrest)%bind_Ok d p [->|Hd]%elem_of_cons Hp.
    + eapply lookup_weaken_None; [by eapply shutil_rmtree_gone|].
      by eapply for_each_shrinks; [apply shutil_rmtree_shrinks|].
    + by eapply IH.
Qed.

Lemma deconfigure_Ok_gone st st' :
  deconfigure st = (Ok tt, st') →
  (∀ d p, d ∈ _tdirs (self st) → is_under d p = true →
          fs (world st') !! p = None) ∧
  (dry_run (env (world st)) = false →
   fs (world st') !! tpath (self st) ["cdrom"] = None).
Proof.
  intros Hdec.
  destruct (deconfigure_shape _ _ _ Hdec)
    as [(e & ? & _)|(s12 & H12 & [(e & ? & _)|(s3 & H3 & H4 & _)])]; [done..|].
  pose proof H12 as (evs & Hs & _)%unwind_loops_steps.
  split.
  - intros d p Hd Hp. rewrite (final_refresh_fs _ _ _ H4).
    eapply lookup_weaken_None; [|by eapply remove_media_dir_shrinks].
    unfold unwind_loops in H12.
    apply bind_Ok in H12 as ([] & s1 & H1 & H2).
    pose proof H1 as (evs1 & Hs1 & _)%unmount_all_steps.
    unfold release_all, bind, get_self in H2.
    rewrite (steps_self _ _ _ Hs1) in H2. by eapply release_loop_gone.
  - intros Hdry. rewrite (final_refresh_fs _ _ _ H4).
    rewrite <- (steps_self _ _ _ Hs). apply remove_media_dir_Ok; [|done].
    by rewrite (steps_env _ _ _ Hs).
Qed.

(** A [deconfigure] that returns has removed every recorded temp directory
    with all that lay below it, and, outside dry-run mode, the media
    mountpoint directory. *)
Theorem deconfigure_clears_recorded_dirs st st' :
  deconfigure st = (Ok tt, st') →
  (∀ d p, d ∈ _tdirs (self st) → is_under d p = true →
          fs (world st') !! p = None) ∧
  (dry_run (env (world st)) = false →
   fs (world st') !! tpath (self st) ["cdrom"] = None).
Proof. apply deconfigure_Ok_gone. Qed.

Lemma deconfigure_clears_recorded_dirs_witness :
  let st := (configure (demo_start false false always_ok)).2 in
  fs (world st) !! "/tmp/tmpbbbbbbbb/upper" = Some Dir ∧
  fs (world (deconfigure st).2) !! "/tmp/tmpbbbbbbbb/upper" = None ∧
  fs (world (deconfigure st).2) !! "/target/cdrom" = None.
Proof.
  intros st. split; [vm_compute; reflexivity|].
  destruct (deconfigure_clears_recorded_dirs st (deconfigure st).2) as [Hd Hc];
    [vm_compute; reflexivity|].
  split.
  - apply (Hd "/tmp/tmpbbbbbbbb"); [|reflexivity].
    apply list_elem_of_In. vm_compute. tauto.
  - by apply Hc.
Defined.

Lemma deconfigure_missing_media_dir st st' :
  dry_run (env (world st)) = false →
  fs (world st) !! tpath (self st) ["cdrom"] = None →
  deconfigure st ≠ (Ok tt, st').
Proof.
  intros Hdry Hnone Hdec.
  destruct (deconfigure_shape _ _ _ Hdec)
    as [(e & ? & _)|(s12 & H12 & [(e & ? & _)|(s3 & H3 & _)])]; [done..|].
  pose proof H12 as (evs & Hs & _)%unwind_loops_steps.
  unfold remove_media_dir, bind, get_self, get_world in H3.
  rewrite (steps_env _ _ _ Hs), Hdry, (steps_self _ _ _ Hs) in H3. simpl in H3.
  eapply os_rmdir_missing; [|exact H3].
  eapply lookup_weaken_None; [exact Hnone|by eapply unwind_loops_shrinks].
Qed.

(** Outside dry-run mode [deconfigure] cannot return when [target/cdrom]
    is not there: it removes that directory whether or not any [configure]
    created it. *)
Theorem deconfigure_needs_media_dir st st' :
  dry_run (env (world st)) = false →
  fs (world st) !! tpath (self st) ["cdrom"] = None →
  deconfigure st ≠ (Ok tt, st').
Proof. apply deconfigure_missing_media_dir. Qed.

Lemma deconfigure_needs_media_dir_witness :
  deconfigure (demo_start true false always_ok) ≠
  (Ok tt, (deconfigure (demo_start true false always_ok)).2).
Proof.
  apply deconfigure_needs_media_dir; vm_compute; reflexivity.
Defined.

(** Teardown is single-shot: the ledgers are not emptied, so after a
    [deconfigure] that returned, a second one cannot return as soon as a
    temp directory was recorded or the stager is not in dry-run mode. *)
Theorem deconfigure_twice_fails st st1 st2 :
  deconfigure st = (Ok tt, st1) →
  dry_run (env (world st)) = false ∨ _tdirs (self st) ≠ [] →
  deconfigure st1 ≠ (Ok tt, st2).
Proof.
  intros Hdec Hcond.
  pose proof Hdec as (evs & Hs & _)%deconfigure_run.
  destruct (deconfigure_Ok_gone _ _ Hdec) as [Hgone Hcd].
  destruct Hcond as [Hdry|Hds].
  - apply deconfigure_missing_media_dir.
    + by rewrite (steps_env _ _ _ Hs).
    + rewrite (steps_self _ _ _ Hs). by apply Hcd.
  - intros Hdec2.
    destruct (_tdirs (self st)) as [|d ds] eqn:Hpool; [done|].
    destruct (deconfigure_shape _ _ _ Hdec2)
      as [(e & ? & _)|(s12 & H12 & _)]; [done|].
    unfold unwind_loops in H12. apply bind_Ok in H12 as ([] & s1 & H1 & H2).
    pose proof H1 as (evs1 & Hs1 & _)%unmount_all_steps.
    unfold release_all, bind, get_self in H2.
    rewrite (steps_self _ _ _ Hs1), (steps_self _ _ _ Hs), Hpool in H2.
    simpl in H2. apply bind_Ok in H2 as ([] & s2 & Hrm & _).
    eapply shutil_rmtree_missing; [|exact Hrm].
    rewrite (unmount_all_fs _ _ _ H1). apply (Hgone d); [by left|].
    unfold is_under. by rewrite String.eqb_refl.
Qed.

Lemma deconfigure_twice_fails_witness :
  let st := (configure (demo_start false true always_ok)).2 in
  (deconfigure st).1 = Ok tt ∧
  deconfigure (deconfigure st).2 ≠ (Ok tt, (deconfigure (deconfigure st).2).2).
Proof.
  intros st. split; [vm_compute; reflexivity|].
  apply (deconfigure_twice_fails st).
  - vm_compute. reflexivity.
  - right. vm_compute. discriminate.
Defined.

(** * Further properties of the staging *)

(** ** Single operations, whatever their outcome *)

Lemma open_w_write_steps p c st r st' :
  open_w_write p c st = (r, st') → steps [EvOpenW p c] st st'.
Proof.
  unfold open_w_write, bind, attempt, get_world, modify_world, raise, steps.
  run_cases.
Qed.

Lemma write_file_steps p c st r st' :
  write_file p c st = (r, st') → steps [EvWriteFile p c] st st'.
Proof.
  unfold write_file, bind, attempt, get_world, modify_world, raise, steps.
  run_cases.
Qed.

Lemma os_mkdir_steps p st r st' :
  os_mkdir p st = (r, st') → steps [EvMkdir p] st st'.
Proof.
  unfold os_mkdir, bind, attempt, get_world, modify_world, raise, steps.
  run_cases.
Qed.

Lemma os_unlink_steps p st r st' :
  os_unlink p st = (r, st') → steps [EvUnlink p] st st'.
Proof.
  unfold os_unlink, bind, attempt, get_world, modify_world, raise, steps.
  run_cases.
Qed.

Lemma os_rename_steps src dst st r st' :
  os_rename src dst st = (r, st') → steps [EvRename src dst] st st'.
Proof.
  unfold os_rename, bind, attempt, get_world, modify_world, raise, steps.
  run_cases.
Qed.

Lemma steps_grows evs st st' : steps evs st st' → grows evs [] [] st st'.
Proof.
  intros (Hs & He & Ht). unfold grows. rewrite Hs, !app_nil_r. done.
Qed.

Lemma grows_trans evs1 ms1 ds1 evs2 ms2 ds2 st st1 st2 :
  grows evs1 ms1 ds1 st st1 → grows evs2 ms2 ds2 st1 st2 →
  grows (evs1 ++ evs2) (ms1 ++ ms2) (ds1 ++ ds2) st st2.
Proof.
  intros (He1 & Hg1 & Ht1 & Hm1 & Hd1) (He2 & Hg2 & Ht2 & Hm2 & Hd2).
  unfold grows.
  rewrite He2, He1, Hg2, Hg1, Ht2, Ht1, Hm2, Hm1, Hd2, Hd1, !app_assoc. done.
Qed.

Lemma bind_cases {A B} (m : M A) (f : A → M B) st r st' :
  bind m f st = (r, st') →
  (∃ e, m st = (Raise e, st') ∧ r = Raise e) ∨
  (∃ a st1, m st = (Ok a, st1) ∧ f a st1 = (r, st')).
Proof.
  unfold bind. destruct (m st) as [[a|e] st1]; [eauto|].
  intros [= <- <-]. left. eauto.
Qed.

(** *** Following a plan *)

Lemma within_nil st : within [] [] [] true st st.
Proof.
  exists [], [], []. split; [|done]. apply steps_grows, steps_refl.
Qed.

Lemma within_done pe pm pd st st' :
  grows pe pm pd st st' → within pe pm pd true st st'.
Proof. intros Hg. by exists pe, pm, pd. Qed.

Lemma within_trans p1 m1 d1 p2 m2 d2 b st st1 st' :
  within p1 m1 d1 true st st1 → within p2 m2 d2 b st1 st' →
  within (p1 ++ p2) (m1 ++ m2) (d1 ++ d2) b st st'.
Proof.
  intros (evs1 & ms1 & ds1 & Hg1 & _ & _ & _ & Hok1)
         (evs2 & ms2 & ds2 & Hg2 & Hp2 & Hm2 & Hd2 & Hok2).
  destruct (Hok1 eq_refl) as (-> & -> & ->).
  exists (p1 ++ evs2), (m1 ++ ms2), (d1 ++ ds2).
  split; [by eapply grows_trans|].
  split; [by apply prefix_app|]. split; [by apply prefix_app|].
  split; [by apply prefix_app|].
  intros Hb. by destruct (Hok2 Hb) as (-> & -> & ->).
Qed.

Lemma within_stop p1 m1 d1 p2 m2 d2 b st st' :
  within p1 m1 d1 b st st' → within (p1 ++ p2) (m1 ++ m2) (d1 ++ d2) false st st'.
Proof.
  intros (evs & ms & ds & Hg & Hp & Hm & Hd & _).
  exists evs, ms, ds. split; [done|].
  split; [by apply prefix_app_r|]. split; [by apply prefix_app_r|].
  split; [by apply prefix_app_r|]. done.
Qed.

Lemma within_step e pe pm pd b st st1 st' :
  steps [e] st st1 → within pe pm pd b st1 st' → within (e :: pe) pm pd b st st'.
Proof.
  intros Hs Hw.
  apply (within_trans [e] [] [] pe pm pd b st st1); [|done].
  by apply within_done, steps_grows.
Qed.

Lemma within_halt e pe pm pd st st' :
  steps [e] st st' → within (e :: pe) pm pd false st st'.
Proof.
  intros Hs. apply (within_stop [e] [] [] pe pm pd true).
  by apply within_done, steps_grows.
Qed.

Lemma within_env pe pm pd b st st' :
  within pe pm pd b st st' → env (world st') = env (world st).
Proof. by intros (? & ? & ? & (? & _) & _). Qed.

(** ** [mount], [tdir] and [setup_overlay], whatever their outcome *)

Lemma mount_effect device mountpoint options type st r st' :
  mount device mountpoint options type st = (r, st') →
  let argv := ["mount"] ++
              (match options with Some o => ["-o"; o] | None => [] end ++
               match type with Some t => ["-t"; t] | None => [] end) ++
              [device; mountpoint] in
  trace (world st') = trace (world st) ++ [EvRun argv] ∧
  fs (world st') = fs (world st) ∧
  _tdirs (self st') = _tdirs (self st) ∧
  ((r = Ok tt ∧ _mounts (self st') = _mounts (self st) ++ [mountpoint]) ∨
   (r = Raise (CalledProcessError argv) ∧ _mounts (self st') = _mounts (self st))).
Proof.
  unfold mount, command_runner_run, bind, attempt, modify_self.
  run_cases; repeat split; auto.
Qed.

(** [mount] runs one command and records the mountpoint exactly when the
    command succeeds; a failed [mount] raises the command's error and
    leaves the ledger as it was.  Neither touches the pool or the tree. *)
Theorem mount_records_on_success device mountpoint options type st r st' :
  mount device mountpoint options type st = (r, st') →
  let argv := ["mount"] ++
              (match options with Some o => ["-o"; o] | None => [] end ++
               match type with Some t => ["-t"; t] | None => [] end) ++
              [device; mountpoint] in
  trace (world st') = trace (world st) ++ [EvRun argv] ∧
  fs (world st') = fs (world st) ∧
  _tdirs (self st') = _tdirs (self st) ∧
  ((r = Ok tt ∧ _mounts (self st') = _mounts (self st) ++ [mountpoint]) ∨
   (r = Raise (CalledProcessError argv) ∧ _mounts (self st') = _mounts (self st))).
Proof. apply mount_effect. Qed.

Lemma mount_records_on_success_witness :
  let st := demo_start true false (refusing (EvRun ["mount"; "/dev/sr0"; "/mnt"])) in
  (mount "/dev/sr0" "/mnt" None None st).1 =
    Raise (CalledProcessError ["mount"; "/dev/sr0"; "/mnt"]) ∧
  _mounts (self (mount "/dev/sr0" "/mnt" None None st).2) = [] ∧
  _mounts (self (mount "/cdrom" "/mnt" (Some "bind") None st).2) = ["/mnt"].
Proof.
  intros st.
  destruct (mount_records_on_success "/dev/sr0" "/mnt" None None st
              (mount "/dev/sr0" "/mnt" None None st).1
              (mount "/dev/sr0" "/mnt" None None st).2)
    as (_ & _ & _ & [[Hr _]|[Hr Hm]]); [vm_compute; reflexivity|discriminate Hr|].
  destruct (mount_records_on_success "/cdrom" "/mnt" (Some "bind") None st
              (mount "/cdrom" "/mnt" (Some "bind") None st).1
              (mount "/cdrom" "/mnt" (Some "bind") None st).2)
    as (_ & _ & _ & [[_ Hm']|[Hr' _]]); [vm_compute; reflexivity| |discriminate Hr'].
  split; [exact Hr|]. split; [exact Hm|exact Hm'].
Defined.

Lemma tdir_effect st r st' :
  tdir st = (r, st') →
  _mounts (self st') = _mounts (self st) ∧
  ((∃ d, r = Ok d ∧ fs (world st) !! d = None ∧
         fs (world st') = <[d := Dir]> (fs (world st)) ∧
         _tdirs (self st') = _tdirs (self st) ++ [d]) ∨
   (∃ e, r = Raise e ∧ fs (world st') = fs (world st) ∧
         _tdirs (self st') = _tdirs (self st))).
Proof.
  unfold tdir, tempfile_mkdtemp, bind, attempt, get_world, modify_world,
    modify_self, raise, ret.
  destruct (env_ok _ _ EvMkdtemp); simpl.
  - destruct (pick_fresh _ _ _) as [[p rest]|] eqn:Hp; intros [= <- <-]; simpl.
    + apply pick_fresh_Some in Hp as [Hnone _]. split; [done|]. left. by exists p.
    + split; [done|]. right. by eexists.
  - intros [= <- <-]. split; [done|]. right. by eexists.
Qed.

(** [tdir] hands out a directory that was not in the tree, creates it and
    records it last in the pool; when it raises, tree and pool are as they
    were.  It never touches the mount ledger. *)
Theorem tdir_allocates st r st' :
  tdir st = (r, st') →
  _mounts (self st') = _mounts (self st) ∧
  ((∃ d, r = Ok d ∧ fs (world st) !! d = None ∧
         fs (world st') = <[d := Dir]> (fs (world st)) ∧
         _tdirs (self st') = _tdirs (self st) ++ [d]) ∨
   (∃ e, r = Raise e ∧ fs (world st') = fs (world st) ∧
         _tdirs (self st') = _tdirs (self st))).
Proof. apply tdir_effect. Qed.

Lemma tdir_allocates_witness :
  let st := demo_start true false always_ok in
  (tdir st).1 = Ok "/tmp/tmpaaaaaaaa" ∧
  _tdirs (self (tdir st).2) = ["/tmp/tmpaaaaaaaa"] ∧
  fs (world (tdir st).2) !! "/tmp/tmpaaaaaaaa" = Some Dir.
Proof.
  intros st.
  destruct (tdir_allocates st (tdir st).1 (tdir st).2)
    as (_ & [(d & Hr & _ & Hfs & Hp)|(e & Hr & _)]);
    [vm_compute; reflexivity| |vm_compute in Hr; discriminate Hr].
  assert (d = "/tmp/tmpaaaaaaaa") as -> by (vm_compute in Hr; congruence).
  split; [exact Hr|]. split; [exact Hp|]. rewrite Hfs. apply lookup_insert_eq.
Defined.

Lemma tdir_within st r st' :
  tdir st = (r, st') →
  (∃ d, r = Ok d ∧ grows [EvMkdtemp] [] [d] st st') ∨
  (∃ e, r = Raise e ∧ steps [EvMkdtemp] st st').
Proof.
  unfold tdir, tempfile_mkdtemp, bind, attempt, get_world, modify_world,
    modify_self, raise, ret, grows, steps.
  destruct (env_ok _ _ EvMkdtemp); simpl.
  - destruct (pick_fresh _ _ _) as [[p rest]|]; intros [= <- <-]; simpl.
    + left. exists p. by rewrite app_nil_r.
    + right. by eexists.
  - intros [= <- <-]. right. by eexists.
Qed.

Lemma mount_within device mountpoint options type st r st' :
  mount device mountpoint options type st = (r, st') →
  within [EvRun (["mount"] ++
                 (match options with Some o => ["-o"; o] | None => [] end ++
                  match type with Some t => ["-t"; t] | None => [] end) ++
                 [device; mountpoint])] [mountpoint] [] (is_ok r) st st'.
Proof.
  unfold mount, command_runner_run, bind, attempt, modify_self.
  destruct (env_ok _ _ _); intros [= <- <-]; simpl.
  - apply within_done. unfold grows. simpl. by rewrite app_nil_r.
  - eexists _, [], []. split; [apply steps_grows; by unfold steps|].
    split; [done|]. split; [apply prefix_nil|]. done.
Qed.

Lemma setup_overlay_within dir st r st' :
  setup_overlay dir st = (r, st') →
  ∃ d, within (overlay_plan dir d) [dir] [d] (is_ok r) st st'.
Proof.
  unfold setup_overlay.
  intros [(e & Hd & ->)|(d & s1 & Hd & Hrun)]%bind_cases;
    apply tdir_within in Hd as [(d' & Hr & Hg)|(e' & Hr & Hs)]; simplify_eq.
  { exists "". by apply (within_halt EvMkdtemp _ [dir] [""]). }
  exists d'. apply (within_trans [EvMkdtemp] [] [d'] _ [dir] [] _ st s1);
    [by apply within_done|].
  apply bind_cases in Hrun as [(e & Hmk & ->)|([] & s2 & Hmk & Hrun)]; simpl in Hmk.
  - apply bind_cases in Hmk as [(e1 & Hw & _)|([] & s3 & Hw & Hmk)].
    { apply os_mkdir_steps in Hw. by apply within_halt. }
    apply os_mkdir_steps in Hw. eapply within_step; [exact Hw|].
    apply bind_cases in Hmk as [(e1 & Hu & _)|([] & s4 & Hu & Hmk)]; [|done].
    apply os_mkdir_steps in Hu. by apply within_halt.
  - apply bind_Ok in Hmk as ([] & s3 & Hw & Hmk).
    apply bind_Ok in Hmk as ([] & s4 & Hu & Hmk). injection Hmk as ->.
    apply os_mkdir_steps in Hw, Hu.
    eapply within_step; [exact Hw|]. eapply within_step; [exact Hu|].
    by apply mount_within in Hrun.
Qed.

Lemma within_single e b st st' : steps [e] st st' → within [e] [] [] b st st'.
Proof. intros Hs. exists [e], [], []. split; [by apply steps_grows|done]. Qed.

Lemma within_overlay dir d pe pm pd b st s1 st' :
  within (overlay_plan dir d) [dir] [d] true st s1 → within pe pm pd b s1 st' →
  within (overlay_plan dir d ++ pe) (dir :: pm) (d :: pd) b st st'.
Proof. apply (within_trans _ [dir] [d]). Qed.

Lemma within_overlay_stop dir d pe pm pd st st' :
  within (overlay_plan dir d) [dir] [d] false st st' →
  within (overlay_plan dir d ++ pe) (dir :: pm) (d :: pd) false st st'.
Proof. apply (within_stop _ [dir] [d]). Qed.

Lemma within_mount e m pe pm pd b st s1 st' :
  within [e] [m] [] true st s1 → within pe pm pd b s1 st' →
  within (e :: pe) (m :: pm) pd b st st'.
Proof. apply (within_trans [e] [m] []). Qed.

Lemma within_mount_stop e m pe pm pd st st' :
  within [e] [m] [] false st st' → within (e :: pe) (m :: pm) pd false st st'.
Proof. apply (within_stop [e] [m] []). Qed.

Ltac follow :=
  repeat first
    [ by (eapply within_halt; eassumption)
    | by (eapply within_overlay_stop; eassumption)
    | by (eapply within_mount_stop; eassumption)
    | by (eapply within_single; eassumption)
    | by apply within_nil
    | eapply within_step; [eassumption|]
    | eapply within_overlay; [eassumption|]
    | eapply within_mount; [eassumption|] ].

Ltac advance Hrun lem Hm s :=
  apply bind_cases in Hrun as [(? & Hm & ->)|([] & s & Hm & Hrun)];
  apply lem in Hm; simpl in Hm.

Lemma configure_within st r st' :
  configure st = (r, st') →
  ∃ d1 d2 unl,
    within (configure_plan st d1 d2 unl) (mounts_plan st) (tdirs_plan st d1 d2)
      (is_ok r) st st'.
Proof.
  unfold configure. intros Hrun.
  apply bind_cases in Hrun as [(? & [=] & _)|(? & ? & [= <- <-] & Hrun)].
  apply bind_cases in Hrun as [(? & [=] & _)|(? & ? & [= <- <-] & Hrun)].
  unfold configure_plan, mounts_plan, tdirs_plan.
  advance Hrun open_w_write_steps H1 s1.
  { exists "", "", false. cbn [app]. follow. }
  advance Hrun attempt_steps H2 s2.
  { exists "", "", false. cbn [app]. follow. }
  advance Hrun attempt_steps H3 s3.
  { exists "", "", false. cbn [app]. follow. }
  apply bind_cases in Hrun as [(? & H4 & ->)|([] & s4 & H4 & Hrun)];
    apply setup_overlay_within in H4 as [d1 H4]; simpl in H4.
  { exists d1, "", false. cbn [app]. follow. }
  advance Hrun os_mkdir_steps H5 s5.
  { exists d1, "", false. cbn [app]. follow. }
  apply bind_cases in Hrun as [(? & H6 & ->)|([] & s6 & H6 & Hrun)];
    apply mount_within in H6; simpl in H6.
  { exists d1, "", false. cbn [app]. follow. }
  apply bind_cases in Hrun as [(? & [=] & _)|(? & ? & [= <- <-] & Hrun)].
  assert (env (world s6) = env (world st)) as Henv.
  { rewrite (within_env _ _ _ _ _ _ H6), (steps_env _ _ _ H5),
      (within_env _ _ _ _ _ _ H4), (steps_env _ _ _ H3), (steps_env _ _ _ H2),
      (steps_env _ _ _ H1). done. }
  rewrite Henv in Hrun. destruct (has_network (env (world st))).
  - advance Hrun os_rename_steps H7 s7.
    { exists d1, "", false. cbn [app]. follow. }
    apply bind_cases in Hrun as [(? & [=] & _)|(? & ? & [= <- <-] & Hrun)].
    rewrite (steps_env _ _ _ H7), Henv in Hrun.
    advance Hrun write_file_steps H8 s8.
    { exists d1, "", false. cbn [app]. follow. }
    apply attempt_steps in Hrun.
    exists d1, "", false. cbn [app]. follow.
  - assert (∀ rb sb,
              (if bool_decide (is_Some (fs (world s6) !!
                    tpath (self st) ["etc/apt/apt.conf.d/90curtin-aptproxy"]))
               then os_unlink (tpath (self st) ["etc/apt/apt.conf.d/90curtin-aptproxy"])
               else ret ()) s6 = (rb, sb) →
              ∃ unl : bool,
                within (if unl
                        then [EvUnlink (tpath (self st)
                                          ["etc/apt/apt.conf.d/90curtin-aptproxy"])]
                        else []) [] [] (is_ok rb) s6 sb) as Hunlink.
    { intros rb sb. destruct (bool_decide _).
      - intros Hu%os_unlink_steps. exists true. by apply within_single.
      - intros [= <- <-]. exists false. apply within_nil. }
    apply bind_cases in Hrun as [(? & Hb & ->)|([] & s7 & Hb & Hrun)].
    + apply bind_cases in Hb as [(? & [=] & _)|(? & ? & [= <- <-] & Hb)].
      apply bind_cases in Hb as [(? & Hu & ->)|([] & su & Hu & Hb)];
        apply Hunlink in Hu as [unl Hu]; simpl in Hu.
      * exists d1, "", unl. cbn [app]. follow.
        rewrite <- app_assoc.
        apply (within_stop _ [] [] _ [_] [_] false). exact Hu.
      * apply setup_overlay_within in Hb as [d2 Hb]; simpl in Hb.
        exists d1, d2, unl. cbn [app]. follow.
        rewrite <- app_assoc.
        eapply (within_trans _ [] [] _ [_] [_]); [exact Hu|]. follow.
    + apply bind_Ok in Hb as (? & ? & [= <- <-] & Hb).
      apply bind_Ok in Hb as ([] & su & Hu & Hb).
      apply Hunlink in Hu as [unl Hu]; simpl in Hu.
      apply setup_overlay_within in Hb as [d2 Hb]; simpl in Hb.
      apply bind_cases in Hrun as [(? & [=] & _)|(? & ? & [= <- <-] & Hrun)].
      rewrite (within_env _ _ _ _ _ _ Hb), (within_env _ _ _ _ _ _ Hu), Henv in Hrun.
      advance Hrun write_file_steps H8 s8.
      * exists d1, d2, unl. cbn [app]. follow.
        rewrite <- app_assoc.
        eapply (within_trans _ [] [] _ [_] [_]); [exact Hu|]. follow.
      * apply attempt_steps in Hrun.
        exists d1, d2, unl. cbn [app]. follow.
        rewrite <- app_assoc.
        eapply (within_trans _ [] [] _ [_] [_]); [exact Hu|]. follow.
Qed.

(** ** The course of [configure], whatever its outcome *)

Lemma prefix_elem_of {A} (l1 l2 : list A) x : l1 `prefix_of` l2 → x ∈ l1 → x ∈ l2.
Proof. intros [k ->] Hx. apply elem_of_app. by left. Qed.

Lemma configure_run st r st' :
  configure st = (r, st') →
  env (world st') = env (world st) ∧ target (self st') = target (self st) ∧
  ∃ d1 d2 unl ms ds,
    events_since st st' `prefix_of` configure_plan st d1 d2 unl ∧
    _mounts (self st') = _mounts (self st) ++ ms ∧ ms `prefix_of` mounts_plan st ∧
    _tdirs (self st') = _tdirs (self st) ++ ds ∧ ds `prefix_of` tdirs_plan st d1 d2 ∧
    (r = Ok tt →
     events_since st st' = configure_plan st d1 d2 unl ∧
     ms = mounts_plan st ∧ ds = tdirs_plan st d1 d2).
Proof.
  intros (d1 & d2 & unl & evs & ms & ds & (He & Hg & Ht & Hm & Hd) & Hpe & Hpm & Hpd & Hok)
    %configure_within.
  split; [done|]. split; [done|]. exists d1, d2, unl, ms, ds.
  rewrite (trace_events _ _ _ Ht). split; [done|]. split; [done|].
  split; [done|]. split; [done|]. split; [done|].
  intros ->. by apply Hok.
Qed.

(** [configure] attempts the operations of its plan in order and stops at
    the first that raises; it attempts nothing else.  It leaves target and
    environment alone, and what it adds to the ledgers is an initial part of
    the mounts and temp directories of the plan: all of them when it
    returns. *)
Theorem configure_follows_plan st r st' :
  configure st = (r, st') →
  env (world st') = env (world st) ∧ target (self st') = target (self st) ∧
  ∃ d1 d2 unl ms ds,
    events_since st st' `prefix_of` configure_plan st d1 d2 unl ∧
    _mounts (self st') = _mounts (self st) ++ ms ∧ ms `prefix_of` mounts_plan st ∧
    _tdirs (self st') = _tdirs (self st) ++ ds ∧ ds `prefix_of` tdirs_plan st d1 d2 ∧
    (r = Ok tt →
     events_since st st' = configure_plan st d1 d2 unl ∧
     ms = mounts_plan st ∧ ds = tdirs_plan st d1 d2).
Proof. apply configure_run. Qed.

Lemma configure_follows_plan_witness :
  let st :=
    demo_start false false
      (refusing (EvMkdir "/tmp/tmpbbbbbbbb/upper")) in
  (configure st).1 = Raise (OSError (EvMkdir "/tmp/tmpbbbbbbbb/upper")) ∧
  ∃ d1 d2 unl ms ds,
    events_since st (configure st).2 `prefix_of` configure_plan st d1 d2 unl ∧
    _mounts (self (configure st).2) = _mounts (self st) ++ ms ∧
    ms `prefix_of` mounts_plan st ∧
    _tdirs (self (configure st).2) = _tdirs (self st) ++ ds ∧
    ds `prefix_of` tdirs_plan st d1 d2.
Proof.
  intros st. split; [vm_compute; reflexivity|].
  destruct (configure_follows_plan st (configure st).1 (configure st).2)
    as (_ & _ & d1 & d2 & unl & ms & ds & Hpe & Hm & Hpm & Hd & Hpd & _);
    [vm_compute; reflexivity|].
  exists d1, d2, unl, ms, ds.
  split; [exact Hpe|]. split; [exact Hm|]. split; [exact Hpm|].
  split; [exact Hd|exact Hpd].
Defined.

Ltac in_plan Hin :=
  repeat (apply elem_of_cons in Hin as [Hin|Hin]; [try discriminate Hin|]);
  try (by apply elem_of_nil in Hin).

(** The two branches of [configure] exclude each other in every run,
    complete or not.  With the network present it never unlinks anything,
    never mounts an overlay over [var/lib/apt/lists] and records at most one
    temp directory; with the network absent it never renames anything. *)
Theorem configure_branches_exclusive st r st' :
  configure st = (r, st') →
  (has_network (env (world st)) = true →
   (∀ p, EvUnlink p ∉ events_since st st') ∧
   (∀ d, overlay_mount_ev (tpath (self st) ["var/lib/apt/lists"]) d
         ∉ events_since st st') ∧
   length (_tdirs (self st')) ≤ S (length (_tdirs (self st)))) ∧
  (has_network (env (world st)) = false →
   ∀ src dst, EvRename src dst ∉ events_since st st').
Proof.
  intros (_ & _ & d1 & d2 & unl & ms & ds & Hpe & _ & _ & Hd & Hpd & _)
    %configure_run.
  unfold configure_plan, tdirs_plan, overlay_plan in *.
  split; intros Hnet; rewrite Hnet in *; cbn [app] in Hpe.
  - split; [|split].
    + intros p Hin%(prefix_elem_of _ _ _ Hpe). in_plan Hin.
    + intros d Hin%(prefix_elem_of _ _ _ Hpe). in_plan Hin.
      apply (f_equal (λ e, match e with EvRun l => last l | _ => None end)) in Hin.
      simpl in Hin. injection Hin as Hdir. revert Hdir. by apply tpath_neq.
    + rewrite Hd, length_app. apply prefix_length in Hpd. simpl in Hpd. lia.
  - intros src dst Hin%(prefix_elem_of _ _ _ Hpe).
    destruct unl; cbn [app] in Hin; in_plan Hin.
Qed.

Lemma configure_branches_exclusive_witness :
  let st := demo_start true false always_ok in
  (∀ p, EvUnlink p ∉ events_since st (configure st).2) ∧
  length (_tdirs (self (configure st).2)) ≤ 1.
Proof.
  intros st.
  destruct (configure_branches_exclusive st (configure st).1 (configure st).2)
    as [Hon _]; [vm_compute; reflexivity|].
  destruct Hon as (Hu & _ & Hlen); [reflexivity|].
  split; [exact Hu|exact Hlen].
Defined.

(** [configure] does not roll back.  Whatever its outcome it attempts no
    [umount], no [rmtree] and no [rmdir], and the ledgers it leaves extend
    the ledgers it found: what it acquired before failing stays recorded. *)
Theorem configure_never_unwinds st r st' :
  configure st = (r, st') →
  (∀ m, umount_ev m ∉ events_since st st') ∧
  (∀ d, EvRmtree d ∉ events_since st st') ∧
  (∀ d, EvRmdir d ∉ events_since st st') ∧
  _mounts (self st) `prefix_of` _mounts (self st') ∧
  _tdirs (self st) `prefix_of` _tdirs (self st').
Proof.
  intros (_ & _ & d1 & d2 & unl & ms & ds & Hpe & Hm & _ & Hd & _ & _)
    %configure_run.
  unfold configure_plan, overlay_plan in Hpe.
  split; [|split; [|split; [|split]]].
  - intros m Hin%(prefix_elem_of _ _ _ Hpe).
    destruct (has_network _), unl; cbn [app] in Hin; in_plan Hin.
  - intros d Hin%(prefix_elem_of _ _ _ Hpe).
    destruct (has_network _), unl; cbn [app] in Hin; in_plan Hin.
  - intros d Hin%(prefix_elem_of _ _ _ Hpe).
    destruct (has_network _), unl; cbn [app] in Hin; in_plan Hin.
  - rewrite Hm. by apply prefix_app_r.
  - rewrite Hd. by apply prefix_app_r.
Qed.

Lemma configure_never_unwinds_witness :
  let st :=
    demo_start true false
      (refusing (EvRun ["mount"; "-o"; "bind"; "/cdrom"; "/target/cdrom"])) in
  (∀ m, umount_ev m ∉ events_since st (configure st).2) ∧
  (∀ d, EvRmtree d ∉ events_since st (configure st).2) ∧
  (∀ d, EvRmdir d ∉ events_since st (configure st).2) ∧
  _tdirs (self (configure st).2) = ["/tmp/tmpaaaaaaaa"].
Proof.
  intros st.
  destruct (configure_never_unwinds st (configure st).1 (configure st).2)
    as (Hu & Ht & Hd & _); [vm_compute; reflexivity|].
  split; [exact Hu|]. split; [exact Ht|]. split; [exact Hd|].
  vm_compute. reflexivity.
Defined.

(** ** Failures of [setup_overlay] and repeated staging *)

Lemma os_mkdir_effect p st r st' :
  os_mkdir p st = (r, st') →
  self st' = self st ∧
  ((r = Ok tt ∧ fs (world st') = <[p := Dir]> (fs (world st))) ∨
   (∃ e, r = Raise e ∧ fs (world st') = fs (world st))).
Proof.
  unfold os_mkdir, bind, attempt, get_world, modify_world, raise.
  run_cases; (split; [done|]); eauto.
Qed.

(** A [setup_overlay] that raises records no mount.  If it raised before a
    directory was drawn, pool and tree are untouched; otherwise the
    directory it drew stays in the tree and in the pool, where the next
    [deconfigure] finds it. *)
Theorem setup_overlay_failure_keeps_tdir dir st e st' :
  setup_overlay dir st = (Raise e, st') →
  _mounts (self st') = _mounts (self st) ∧
  ((_tdirs (self st') = _tdirs (self st) ∧ fs (world st') = fs (world st)) ∨
   (∃ d, _tdirs (self st') = _tdirs (self st) ++ [d] ∧
         fs (world st) !! d = None ∧ fs (world st') !! d = Some Dir)).
Proof.
  unfold setup_overlay.
  intros [(e0 & Hd & _)|(d & s1 & Hd & Hrun)]%bind_cases;
    apply tdir_effect in Hd as (Hm1 & [(d' & Hr & Hnone & Hfs1 & Hp1)|(e' & Hr & Hfs1 & Hp1)]);
    simplify_eq.
  { split; [done|]. by left. }
  assert (fs (world s1) !! d' = Some Dir) as Hd1
    by (rewrite Hfs1; apply lookup_insert_eq).
  assert (∀ p s r s', os_mkdir p s = (r, s') → fs (world s) !! d' = Some Dir →
            self s' = self s ∧ fs (world s') !! d' = Some Dir) as Hmk.
  { intros p s r s' (Hs & [(_ & ->)|(? & _ & ->)])%os_mkdir_effect Hl;
      (split; [done|]); [by apply lookup_insert_Dir|done]. }
  apply bind_cases in Hrun as [(e0 & Hloop & _)|([] & s2 & Hloop & Hrun)];
    simpl in Hloop.
  - apply bind_cases in Hloop as [(e1 & Hw & _)|([] & s3 & Hw & Hloop)].
    { destruct (Hmk _ _ _ _ Hw Hd1) as [Hs Hl]. rewrite Hs.
      split; [done|]. right. by exists d'. }
    destruct (Hmk _ _ _ _ Hw Hd1) as [Hs3 Hl3].
    apply bind_cases in Hloop as [(e1 & Hu & _)|([] & s4 & Hu & Hloop)]; [|done].
    destruct (Hmk _ _ _ _ Hu Hl3) as [Hs Hl]. rewrite Hs, Hs3.
    split; [done|]. right. by exists d'.
  - apply bind_Ok in Hloop as ([] & s3 & Hw & Hloop).
    apply bind_Ok in Hloop as ([] & s4 & Hu & Hloop). injection Hloop as ->.
    destruct (Hmk _ _ _ _ Hw Hd1) as [Hs3 Hl3].
    destruct (Hmk _ _ _ _ Hu Hl3) as [Hs2 Hl2].
    apply mount_effect in Hrun as (_ & Hfs & Hp & [[? _]|[_ Hmm]]);
      [done|].
    rewrite Hmm, Hp, Hfs, Hs2, Hs3. split; [done|]. right. by exists d'.
Qed.

Lemma setup_overlay_failure_keeps_tdir_witness :
  let st :=
    demo_start true false
      (refusing (overlay_mount_ev "/target/etc/apt" "/tmp/tmpaaaaaaaa")) in
  let st' := (setup_overlay "/target/etc/apt" st).2 in
  _mounts (self st') = [] ∧ _tdirs (self st') = ["/tmp/tmpaaaaaaaa"] ∧
  fs (world st') !! "/tmp/tmpaaaaaaaa" = Some Dir.
Proof.
  intros st st'.
  destruct (setup_overlay_failure_keeps_tdir "/target/etc/apt" st
              (CalledProcessError
                 ["mount"; "-o";
                  "lowerdir=/target/etc/apt,upperdir=/tmp/tmpaaaaaaaa/upper,workdir=/tmp/tmpaaaaaaaa/work";
                  "-t"; "overlay"; "overlay"; "/target/etc/apt"]) st')
    as [Hm _]; [vm_compute; reflexivity|].
  split; [exact Hm|]. split; vm_compute; reflexivity.
Defined.

(** [setup_overlay] keeps the pool sound, whatever its outcome: the entries
    stay distinct, and each is a directory of the tree. *)
Theorem setup_overlay_keeps_pool dir st r st' :
  pool_ok st → setup_overlay dir st = (r, st') → pool_ok st'.
Proof.
  assert (∀ s s', pool_ok s → self s' = self s →
            (∀ q, fs (world s) !! q = Some Dir → fs (world s') !! q = Some Dir) →
            pool_ok s') as Hkeep.
  { intros s s' [Hnd Hex] Hs Hfs. unfold pool_ok. rewrite Hs. split; [done|].
    intros d Hd. by apply Hfs, Hex. }
  assert (∀ p s r s', pool_ok s → os_mkdir p s = (r, s') → pool_ok s') as Hmk.
  { intros p s r0 s' Hpool (Hs & [(_ & Hfs)|(? & _ & Hfs)])%os_mkdir_effect;
      apply (Hkeep s); try done; rewrite Hfs; [|done].
    intros q Hq. by apply lookup_insert_Dir. }
  intros Hpool. unfold setup_overlay.
  intros [(e0 & Hd & _)|(d & s1 & Hd & Hrun)]%bind_cases;
    apply tdir_effect in Hd as (Hm1 & [(d' & Hr & Hnone & Hfs1 & Hp1)|(e' & Hr & Hfs1 & Hp1)]);
    simplify_eq.
  { destruct Hpool as [Hnd Hex]. unfold pool_ok. rewrite Hp1, Hfs1. done. }
  assert (pool_ok s1) as Hpool1.
  { destruct Hpool as [Hnd Hex]. unfold pool_ok. rewrite Hp1, Hfs1. split.
    - apply NoDup_app. split; [done|]. split; [|apply NoDup_singleton].
      intros x Hx ->%list_elem_of_singleton. apply Hex in Hx. congruence.
    - intros x [Hx| ->%list_elem_of_singleton]%elem_of_app.
      + apply lookup_insert_Dir. by apply Hex.
      + apply lookup_insert_eq. }
  apply bind_cases in Hrun as [(e0 & Hloop & _)|([] & s2 & Hloop & Hrun)];
    simpl in Hloop.
  - apply bind_cases in Hloop as [(e1 & Hw & _)|([] & s3 & Hw & Hloop)];
      [by eapply Hmk|].
    apply bind_cases in Hloop as [(e1 & Hu & _)|([] & s4 & Hu & Hloop)]; [|done].
    eapply Hmk; [|exact Hu]. by eapply Hmk.
  - apply bind_Ok in Hloop as ([] & s3 & Hw & Hloop).
    apply bind_Ok in Hloop as ([] & s4 & Hu & Hloop). injection Hloop as ->.
    assert (pool_ok s2) as [Hnd2 Hex2] by (eapply Hmk; [|exact Hu]; by eapply Hmk).
    apply mount_effect in Hrun as (_ & Hfs & Hp & _).
    unfold pool_ok. by rewrite Hp, Hfs.
Qed.

Lemma setup_overlay_keeps_pool_witness :
  let st := demo_start true false (refusing (EvMkdir "/tmp/tmpaaaaaaaa/upper")) in
  (setup_overlay "/target/etc/apt" st).1 =
    Raise (OSError (EvMkdir "/tmp/tmpaaaaaaaa/upper")) ∧
  pool_ok (setup_overlay "/target/etc/apt" st).2.
Proof.
  intros st. split; [vm_compute; reflexivity|].
  apply (setup_overlay_keeps_pool "/target/etc/apt" st
           (setup_overlay "/target/etc/apt" st).1).
  - split; [apply NoDup_nil_2|]. intros d Hd. by apply elem_of_nil in Hd.
  - vm_compute. reflexivity.
Defined.

Lemma configure_existing_media_dir st st' :
  is_Some (fs (world st) !! tpath (self st) ["cdrom"]) →
  configure st ≠ (Ok tt, st').
Proof.
  intros Hsome Hrun. unfold configure in Hrun. invert_run.
  match goal with H : setup_overlay _ _ = _ |- _ =>
    apply setup_overlay_Ok in H as (d & rest & _ & _ & ->) end.
  match goal with H : os_mkdir _ _ = _ |- _ => apply os_mkdir_Ok in H as [Hnone _] end.
  simpl in Hnone.
  repeat (apply lookup_insert_None in Hnone as [Hnone _]).
  rewrite Hnone in Hsome. by destruct Hsome.
Qed.

(** [configure] cannot return when [target/cdrom] is already there: it
    creates that directory itself, with a plain [os.mkdir]. *)
Theorem configure_needs_no_media_dir st st' :
  is_Some (fs (world st) !! tpath (self st) ["cdrom"]) →
  configure st ≠ (Ok tt, st').
Proof. apply configure_existing_media_dir. Qed.

Lemma configure_needs_no_media_dir_witness :
  let st := put_fs "/target/cdrom" Dir (demo_start true false always_ok) in
  (configure st).1 = Raise (FileExistsError "/target/cdrom") ∧
  configure st ≠ (Ok tt, (configure st).2).
Proof.
  intros st. split; [vm_compute; reflexivity|].
  apply configure_needs_no_media_dir. exists Dir. vm_compute. reflexivity.
Defined.

Lemma prefix_append_cancel (p a b : string) :
  String.prefix (p +:+ a) (p +:+ b) = String.prefix a b.
Proof.
  induction p as [|c p IH]; [done|]. rewrite !append_cons. simpl.
  destruct (ascii_dec c c); [exact IH|done].
Qed.

Lemma cdrom_outside_sources a :
  is_under (tpath a ["etc/apt/sources.list"]) (tpath a ["cdrom"]) = false.
Proof.
  unfold is_under. apply orb_false_intro.
  - apply String.eqb_neq. apply tpath_neq; done.
  - rewrite !tpath_relative by done. rewrite append_assoc.
    by rewrite prefix_append_cancel.
Qed.

Lemma move_tree_keeps src dst (m : gmap string node) q :
  is_under src q = false → is_Some (m !! q) → is_Some (move_tree src dst m !! q).
Proof.
  intros Hq [n Hn]. unfold move_tree.
  apply not_eq_None_Some. intros Hnone%not_elem_of_list_to_map. apply Hnone.
  apply list_elem_of_fmap. exists (q, n). split; [done|].
  apply list_elem_of_fmap. exists (q, n). split.
  - unfold rebase. simpl. by rewrite Hq.
  - by apply elem_of_map_to_list.
Qed.

Lemma os_rename_keeps src dst st st' q :
  os_rename src dst st = (Ok tt, st') →
  is_under src q = false →
  is_Some (fs (world st) !! q) → is_Some (fs (world st') !! q).
Proof.
  intros Hrun Hq Hsome.
  assert (src ≠ q) as Hne.
  { intros ->. unfold is_under in Hq. by rewrite String.eqb_refl in Hq. }
  revert Hrun.
  unfold os_rename, bind, attempt, get_world, modify_world, raise.
  run_cases.
  all: try (apply lookup_insert_is_Some'; right; by rewrite lookup_delete_ne).
  all: by apply move_tree_keeps.
Qed.

(** A [configure] that returns leaves [target/cdrom] in the tree. *)
Lemma configure_leaves_media_dir st st' :
  configure st = (Ok tt, st') →
  is_Some (fs (world st') !! tpath (self st) ["cdrom"]).
Proof.
  intros Hrun. unfold configure in Hrun. invert_run.
  match goal with H : setup_overlay _ _ = _ |- _ =>
    apply setup_overlay_Ok in H as (d & rest & _ & _ & ->) end.
  match goal with H : os_mkdir _ _ = _ |- _ => apply os_mkdir_Ok in H as [_ ->] end.
  simpl. apply lookup_insert_is_Some'. right.
  match goal with
  | H : (if ?b then _ else _) ?s = (Ok tt, ?x) |- _ =>
      assert (is_Some (fs (world s) !! tpath (self st) ["cdrom"])) as Hs
        by (simpl; rewrite lookup_insert_eq; eauto);
      destruct b
  end.
  - eapply os_rename_keeps; [eassumption|apply cdrom_outside_sources|exact Hs].
  - invert_run.
    match goal with H : setup_overlay _ _ = _ |- _ =>
      apply setup_overlay_Ok in H as (d2 & rest2 & _ & _ & ->) end.
    simpl. do 3 (apply lookup_insert_is_Some'; right).
    match goal with
    | H : (if ?b then _ else _) _ = _ |- _ => destruct b; invert_run
    end; simpl; [|exact Hs].
    rewrite lookup_delete_ne; [exact Hs|]. apply tpath_neq; done.
Qed.

(** Staging is single-shot: after a [configure] that returned, a second one
    on the same stager cannot return. *)
Theorem configure_twice_fails st st1 st2 :
  configure st = (Ok tt, st1) → configure st1 ≠ (Ok tt, st2).
Proof.
  intros Hrun. apply configure_existing_media_dir.
  pose proof (configure_leaves_media_dir _ _ Hrun) as Hsome.
  apply configure_run in Hrun as (_ & Ht & _).
  unfold tpath in *. by rewrite Ht.
Qed.

Lemma configure_twice_fails_witness :
  let st := demo_start false false always_ok in
  (configure st).1 = Ok tt ∧
  configure (configure st).2 ≠ (Ok tt, (configure (configure st).2).2).
Proof.
  intros st. split; [vm_compute; reflexivity|].
  apply (configure_twice_fails st). vm_compute. reflexivity.
Defined.

(** ** Paths under the target *)

Lemma path_join_app a l1 l2 : path_join a (l1 ++ l2) = path_join (path_join a l1) l2.
Proof. unfold path_join. apply foldl_app. Qed.

Lemma path_join_cons a x l : path_join a (x :: l) = path_join (join1 a x) l.
Proof. reflexivity. Qed.

(** [tpath] inherits the rule of [os.path.join]: an absolute component
    discards the target and everything given before it.  Without
    components [tpath] is the target itself. *)
Theorem tpath_absolute_escapes a before x after :
  starts_with_sep x = true →
  tpath a (before ++ x :: after) = path_join x after ∧ tpath a [] = target a.
Proof.
  intros Hx. split; [|done]. unfold tpath.
  rewrite path_join_app, path_join_cons. unfold join1. by rewrite Hx.
Qed.

Lemma tpath_absolute_escapes_witness :
  tpath (init "/target") ["etc"; "/cdrom"; "pool"] = "/cdrom/pool" ∧
  tpath (init "/target") [] = "/target".
Proof.
  destruct (tpath_absolute_escapes (init "/target") ["etc"] "/cdrom" ["pool"])
    as [Ha Hn]; [reflexivity|].
  split; [exact Ha|exact Hn].
Defined.

(** * The prober *)

Lemma blank_loop_other {V} (empty : V) (types : gset string) keys
    (r : gmap string V) k :
  k ∉ keys ∨ k ∈ types →
  foldl (λ r k, if decide (k ∈ types) then r else <[k := empty]> r) r keys !! k =
  r !! k.
Proof.
  revert r. induction keys as [|x keys IH]; intros r Hk; simpl; [done|].
  rewrite IH.
  - destruct (decide (x ∈ types)); [done|]. apply lookup_insert_ne.
    intros ->. destruct Hk as [Hk|Hk]; [|done]. apply Hk. by left.
  - destruct Hk as [Hk|Hk]; [|by right]. left. intros Hin. apply Hk. by right.
Qed.

Lemma blank_loop_blanked {V} (empty : V) (types : gset string) keys
    (r : gmap string V) k :
  k ∈ keys → k ∉ types →
  foldl (λ r k, if decide (k ∈ types) then r else <[k := empty]> r) r keys !! k =
  Some empty.
Proof.
  revert r. induction keys as [|x keys IH]; intros r Hin Hout; simpl.
  { by apply elem_of_nil in Hin. }
  destruct (decide (k ∈ keys)) as [Hk|Hk]; [by apply IH|].
  apply elem_of_cons in Hin as [->|Hin]; [|done].
  rewrite blank_loop_other by (by left).
  destruct (decide (x ∈ types)); [done|]. apply lookup_insert_eq.
Qed.

Lemma storage_keys {V} (storage : gmap string V) k :
  k ∈ (map_to_list storage).*1 ↔ is_Some (storage !! k).
Proof.
  rewrite list_elem_of_fmap. split.
  - intros ([k' v] & -> & Hin). apply elem_of_map_to_list in Hin. by eexists.
  - intros [v Hv]. exists (k, v). split; [done|]. by apply elem_of_map_to_list.
Qed.

(** With saved data and a set of probe types, [get_storage] returns a
    mapping with exactly the keys of the saved storage section: a key among
    the probe types keeps its saved data, every other key is mapped to the
    empty mapping. *)
Theorem get_storage_blanks_unrequested {V} (empty : V) config storage types r :
  config !! "storage" = Some storage →
  get_storage empty (Some config) (Some types) = Stored r →
  dom r = dom storage ∧
  ∀ k, r !! k = (λ v, if decide (k ∈ types) then v else empty) <$> storage !! k.
Proof.
  unfold get_storage. intros -> [= <-].
  assert (∀ k, blank_unrequested empty types storage storage !! k =
               (λ v, if decide (k ∈ types) then v else empty) <$> storage !! k)
    as Hlook.
  { intros k. unfold blank_unrequested.
    destruct (decide (k ∈ types)) as [Hin|Hout].
    - rewrite blank_loop_other by (by right). by destruct (storage !! k).
    - destruct (storage !! k) as [v|] eqn:Hk; simpl.
      + apply blank_loop_blanked; [|done]. apply storage_keys. by eexists.
      + rewrite blank_loop_other; [done|]. left. rewrite storage_keys, Hk.
        by intros [? ?]. }
  split; [|done]. apply set_eq. intros k. rewrite !elem_of_dom, Hlook.
  by rewrite fmap_is_Some.
Qed.

(** [get_storage] returns the saved storage section as it is when no probe
    types are given, and also when the probe types cover all its keys. *)
Theorem get_storage_keeps_requested {V} (empty : V) config storage probe_types :
  config !! "storage" = Some storage →
  (∀ types, probe_types = Some types → dom storage ⊆ types) →
  get_storage empty (Some config) probe_types = Stored storage.
Proof.
  intros Hs Hcover. unfold get_storage. rewrite Hs.
  destruct probe_types as [types|]; [|done]. f_equal.
  apply map_eq. intros k. unfold blank_unrequested.
  apply blank_loop_other.
  destruct (storage !! k) as [v|] eqn:Hk.
  - right. apply (Hcover types eq_refl). apply elem_of_dom. by eexists.
  - left. rewrite storage_keys, Hk. by intros [? ?].
Qed.

Lemma get_storage_blanks_unrequested_witness :
  let storage : gmap string (list string) :=
    {[ "blockdev" := ["/dev/sda"; "/dev/sdb"]; "filesystem" := ["ext4"] ]} in
  let config : gmap string (gmap string (list string)) :=
    {[ "storage" := storage; "network" := ∅ ]} in
  ∃ r, get_storage [] (Some config) (Some {[ "blockdev" ]}) = Stored r ∧
       r !! "blockdev" = Some ["/dev/sda"; "/dev/sdb"] ∧
       r !! "filesystem" = Some [] ∧ r !! "raid" = None.
Proof.
  intros storage config.
  destruct (get_storage [] (Some config) (Some {[ "blockdev" ]})) as [r| |] eqn:Hr;
    [|vm_compute in Hr; discriminate Hr..].
  exists r. split; [done|].
  destruct (get_storage_blanks_unrequested [] config storage {[ "blockdev" ]} r)
    as [_ Hlook]; [vm_compute; reflexivity|exact Hr|].
  rewrite !Hlook. split; [|split]; vm_compute; reflexivity.
Defined.

Lemma get_storage_keeps_requested_witness :
  let storage : gmap string (list string) :=
    {[ "blockdev" := ["/dev/sda"]; "filesystem" := ["ext4"] ]} in
  let config : gmap string (gmap string (list string)) :=
    {[ "storage" := storage ]} in
  get_storage [] (Some config) None = Stored storage ∧
  get_storage [] (Some config) (Some {[ "blockdev"; "filesystem"; "raid" ]}) =
    Stored storage.
Proof.
  intros storage config. split.
  - apply get_storage_keeps_requested; [vm_compute; reflexivity|]. by intros types.
  - apply get_storage_keeps_requested; [vm_compute; reflexivity|].
    intros types [= <-]. unfold storage. rewrite dom_insert_L, dom_singleton_L.
    set_solver.
Defined.
